(** * The DNSimple to Cloudflare migration runner, embedded in Rocq

    A shallow embedding of [scripts/cloudflare-migration.sh].  The script
    is a bash program that runs under [set -euo pipefail]; it talks to two
    REST APIs through curl, reads their answers with jq, and keeps the
    zone identifiers in one JSON file.  The embedding keeps that shape:

    - text is [string], and the small text tools of the script (awk, cut,
      sed, grep, command substitution) are functions on strings;
    - an answer of a provider is a JSON document read through a model of
      the jq filters the script uses;
    - the state file is a finite map from domain to zone record;
    - the script itself is a computation in a state monad with exit,
      where every command that bash would abort on under errexit is an
      explicit exit.

    The shell modelled is bash 4.1 or later, where a failing arithmetic
    command takes part in errexit. *)

From Stdlib Require Import String Ascii List ZArith Bool Lia.
From stdpp Require Import base option list strings gmap pretty sorting.

Local Open Scope Z_scope.
Set Warnings "-register-all".

(** * Text *)

Module Text.

(** The double quote, which the payloads of the script are full of. *)
Definition dq : string := String (ascii_of_nat 34) "".
Definition LF : ascii := ascii_of_nat 10.
Definition CR : ascii := ascii_of_nat 13.
Definition TAB : ascii := ascii_of_nat 9.
Definition nl : string := String LF "".

(** [q s] is [s] between double quotes, with nothing escaped: what
    the script gets when it interpolates a variable between two escaped
    quotes. *)
Definition q (s : string) : string := dq +:+ s +:+ dq.

Definition nonempty (s : string) : bool := negb (String.eqb s "").

(** Pieces of [s] between separators; empty pieces are kept, and the empty
    string has one empty piece. *)
Fixpoint split (sep : ascii → bool) (s : string) : list string :=
  match s with
  | "" => [""]
  | String a s' =>
      if sep a then "" :: split sep s'
      else match split sep s' with
           | [] => [String a ""]
           | p :: ps => String a p :: ps
           end
  end.

Fixpoint join (sep : string) (l : list string) : string :=
  match l with
  | [] => ""
  | [x] => x
  | x :: l' => x +:+ sep +:+ join sep l'
  end.

(** The lines a tool reads from [echo "$s"]. *)
Definition lines (s : string) : list string := split (Ascii.eqb LF) s.

(** Command substitution drops every trailing newline. *)
Fixpoint chomp (s : string) : string :=
  match s with
  | "" => ""
  | String a s' =>
      let r := chomp s' in
      if Ascii.eqb a LF && String.eqb r "" then "" else String a r
  end.

(** [x=$(echo "$s" | tool)] for a tool that maps each line to one line. *)
Definition per_line (tool : string → string) (s : string) : string :=
  chomp (join nl (map tool (lines s))).

(** awk splits a line into fields at runs of blanks. *)
Definition is_blank (a : ascii) : bool := Ascii.eqb a " " || Ascii.eqb a TAB.
Definition fields (line : string) : list string :=
  List.filter nonempty (split is_blank line).

(** [awk '{print $n}'], for n from 1. *)
Definition awk_print (n : nat) (line : string) : string :=
  nth (pred n) (fields line) "".

(** [cut -d. -f n], for n from 1: a line without the delimiter is printed
    whole, whatever the field. *)
Definition cut_dot (n : nat) (line : string) : string :=
  match split (Ascii.eqb ".") line with
  | [_] => line
  | ps => nth (pred n) ps ""
  end.

(** [sed 's/\.$//']: one dot at the end of the line goes. *)
Fixpoint strip_dot (line : string) : string :=
  match line with
  | "" => ""
  | String a s' =>
      if Ascii.eqb a "." && String.eqb s' "" then "" else String a (strip_dot s')
  end.

(** [tr -d '\r'] *)
Fixpoint delete_cr (s : string) : string :=
  match s with
  | "" => ""
  | String a s' => if Ascii.eqb a CR then delete_cr s' else String a (delete_cr s')
  end.

(** [tr '\n' ' '] *)
Fixpoint lf_to_space (s : string) : string :=
  match s with
  | "" => ""
  | String a s' => String (if Ascii.eqb a LF then " "%char else a) (lf_to_space s')
  end.

(** Word splitting of an unquoted expansion with the default IFS.
    Pathname expansion of the words is not modelled: the words the script
    splits are record identifiers. *)
Definition is_ifs (a : ascii) : bool :=
  Ascii.eqb a " " || Ascii.eqb a TAB || Ascii.eqb a LF.
Definition words (s : string) : list string :=
  List.filter nonempty (split is_ifs s).

Definition lower_ascii (a : ascii) : ascii :=
  let n := nat_of_ascii a in
  if (Nat.leb 65 n && Nat.leb n 90)%bool then ascii_of_nat (n + 32) else a.

Fixpoint lower (s : string) : string :=
  match s with
  | "" => ""
  | String a s' => String (lower_ascii a) (lower s')
  end.

Fixpoint contains (needle hay : string) : bool :=
  String.prefix needle hay ||
  match hay with
  | "" => false
  | String _ h => contains needle h
  end.

(** [grep -qi needle], for a needle without newline. *)
Definition grep_qi (needle text : string) : bool :=
  contains (lower needle) (lower text).

(** [${s:0:n}] *)
Definition take_chars (n : nat) (s : string) : string := String.substring 0 n s.

(** [${v:-d}] *)
Definition or_default (v d : string) : string :=
  if String.eqb v "" then d else v.

End Text.

Import Text.


(** * JSON documents and the jq filters of the script *)

Module Json.

(** Numbers are integers here: the script reads identifiers, flags, TTLs
    and priorities.  The members of an object are in document order, with
    distinct keys, as a parser delivers them. *)
Inductive json :=
| JNull
| JBool (b : bool)
| JNum (n : Z)
| JStr (s : string)
| JArr (items : list json)
| JObj (members : list (string * json)).

Definition hex_digit (n : nat) : string :=
  String.substring n 1 "0123456789abcdef".

(** One character inside a JSON string, as jq prints it. *)
Definition escape_char (a : ascii) : string :=
  let n := nat_of_ascii a in
  if Nat.eqb n 34 then "\" +:+ dq
  else if Nat.eqb n 92 then "\\"
  else if Nat.eqb n 10 then "\n"
  else if Nat.eqb n 9 then "\t"
  else if Nat.eqb n 13 then "\r"
  else if Nat.eqb n 8 then "\b"
  else if Nat.eqb n 12 then "\f"
  else if (Nat.ltb n 32 || Nat.eqb n 127)%bool
       then "\u00" +:+ hex_digit (n / 16) +:+ hex_digit (n mod 16)
  else String a "".

Fixpoint escape (s : string) : string :=
  match s with
  | "" => ""
  | String a s' => escape_char a +:+ escape s'
  end.

(** [printf '%s' "$s" | jq -Rs '.'] : the text as one JSON string. *)
Definition json_quote (s : string) : string := q (escape s).

(** Compact printing, as [jq -c], and as jq prints every scalar. *)
Fixpoint render (v : json) : string :=
  match v with
  | JNull => "null"
  | JBool true => "true"
  | JBool false => "false"
  | JNum n => pretty n
  | JStr s => json_quote s
  | JArr items =>
      "[" +:+
      (fix go (l : list json) : string :=
         match l with
         | [] => ""
         | x :: l' => render x +:+ match l' with [] => "" | _ => "," end +:+ go l'
         end) items +:+ "]"
  | JObj members =>
      "{" +:+
      (fix go (l : list (string * json)) : string :=
         match l with
         | [] => ""
         | (k, x) :: l' =>
             json_quote k +:+ ":" +:+ render x +:+
             match l' with [] => "" | _ => "," end +:+ go l'
         end) members +:+ "}"
  end.

(** Printing as jq does without [-c]: arrays and objects over several
    lines, two more blanks at each level. *)
Definition indent (depth : nat) : string := String.concat "" (replicate depth "  ").

Fixpoint render_indented (depth : nat) (v : json) : string :=
  match v with
  | JArr [] => "[]"
  | JObj [] => "{}"
  | JArr items =>
      "[" +:+ nl +:+
      (fix go (l : list json) : string :=
         match l with
         | [] => ""
         | x :: l' =>
             indent (S depth) +:+ render_indented (S depth) x +:+
             match l' with [] => "" | _ => "," end +:+ nl +:+ go l'
         end) items +:+ indent depth +:+ "]"
  | JObj members =>
      "{" +:+ nl +:+
      (fix go (l : list (string * json)) : string :=
         match l with
         | [] => ""
         | (k, x) :: l' =>
             indent (S depth) +:+ json_quote k +:+ ": " +:+
             render_indented (S depth) x +:+
             match l' with [] => "" | _ => "," end +:+ nl +:+ go l'
         end) members +:+ indent depth +:+ "}"
  | _ => render v
  end.

(** With [-r] a string is printed as it is. *)
Definition print (raw : bool) (v : json) : string :=
  match v with
  | JStr s => if raw then s else render v
  | _ => render_indented 0 v
  end.

(** The filters the script is written with. *)
Inductive filter :=
| Dot                               (* .        *)
| Key (f : filter) (k : string)     (* f.k      *)
| Nth (f : filter) (i : nat)        (* f[i]     *)
| Each (f : filter)                 (* f[]      *)
| Alt (f g : filter)                (* f // g   *)
| Void                              (* empty    *)
| Lit (v : json)                    (* a literal *)
| Length (f : filter).              (* f | length *)

Definition get_key (k : string) (v : json) : option json :=
  match v with
  | JObj members =>
      Some (default JNull (snd <$> List.find (λ m, String.eqb (fst m) k) members))
  | JNull => Some JNull
  | _ => None
  end.

Definition get_nth (i : nat) (v : json) : option json :=
  match v with
  | JArr items => Some (nth i items JNull)
  | JNull => Some JNull
  | _ => None
  end.

Definition get_each (v : json) : option (list json) :=
  match v with
  | JArr items => Some items
  | JObj members => Some (map snd members)
  | _ => None
  end.

Definition get_length (v : json) : option json :=
  match v with
  | JNull => Some (JNum 0)
  | JBool _ => None
  | JNum n => Some (JNum (Z.abs n))
  | JStr s => Some (JNum (Z.of_nat (String.length s)))
  | JArr items => Some (JNum (Z.of_nat (length items)))
  | JObj members => Some (JNum (Z.of_nat (length members)))
  end.

Definition truthy (v : json) : bool :=
  match v with
  | JNull | JBool false => false
  | _ => true
  end.

(** The outputs of a filter on a value, [None] when jq stops on an error.
    The left side of [//] keeps its errors to itself. *)
Fixpoint eval (f : filter) (v : json) : option (list json) :=
  match f with
  | Dot => Some [v]
  | Key f k => eval f v ≫= mapM (get_key k)
  | Nth f i => eval f v ≫= mapM (get_nth i)
  | Each f => eval f v ≫= λ vs, mjoin <$> mapM get_each vs
  | Alt f g =>
      match eval f v with
      | Some vs =>
          match List.filter truthy vs with
          | [] => eval g v
          | ts => Some ts
          end
      | None => eval g v
      end
  | Void => Some []
  | Lit c => Some [c]
  | Length f => eval f v ≫= mapM get_length
  end.

(** What a JSON reader makes of a text: nothing but blanks, something
    that does not parse, or a document. *)
Inductive text :=
| Blank
| Malformed
| Doc (v : json).

(** The result of a command: its exit status and what it wrote to
    standard output. *)
Definition result : Type := Z * string.

Definition print_all (raw : bool) (vs : list json) : string :=
  String.concat "" (map (λ v, print raw v +:+ nl) vs).

(** [echo "$t" | jq [-r] f].  Nothing is printed when jq fails; the
    statuses are those of jq: 2 for an input that does not parse, 5 for an
    error of the filter. *)
Definition jq (raw : bool) (f : filter) (t : text) : result :=
  match t with
  | Blank => (0, "")
  | Malformed => (2, "")
  | Doc v =>
      match eval f v with
      | Some vs => (0, print_all raw vs)
      | None => (5, "")
      end
  end.

(** [jq -e f]: the status also tells whether the last output is neither
    [false] nor [null] (1 if it is, 4 if there was none). *)
Definition jq_e (f : filter) (t : text) : result :=
  match t with
  | Blank => (4, "")
  | Malformed => (2, "")
  | Doc v =>
      match eval f v with
      | Some vs =>
          (match last vs with
           | None => 4
           | Some x => if truthy x then 0 else 1
           end, print_all false vs)
      | None => (5, "")
      end
  end.

(** The lines of [jq -c f], each one a document again. *)
Definition jq_c (f : filter) (t : text) : list json :=
  match t with
  | Doc v => default [] (eval f v)
  | _ => []
  end.

End Json.

Import Json.

(** * The world outside the script *)

Inductive provider := CF | DS.
Inductive method := GET | POST | PUT | DELETE.

(** What the script does to the outside, in the order it does it.
    [Api] is a request to a provider ([cf], [ds], and the curl of the
    unlock step); [Site] is a probe of a web site, with [-I] or without;
    [Dig] a DNS lookup; [Prompt] a [read -rp]. *)
Inductive event :=
| Api (p : provider) (m : method) (path : string) (data : option string)
| Site (head_only : bool) (url : string)
| Dig (args : list string)
| Prompt (message : string)
| Sleep (seconds : nat).

(** The answer to a request: the transfer failed and curl exits with the
    given status, or there is an HTTP status and a body. *)
Inductive reply :=
| Down (status : positive)
| Http (code : nat) (body : text).

Inductive page :=
| Unreachable (status : positive)
| Page (code : nat) (headers : list string).

Inductive answer := Enter | EndOfInput | Interrupt.

(** The outside answers an event knowing everything that happened before:
    each oracle gets the trace, newest event first, whose head is the
    event to answer. *)
Record world := {
  api : list event → reply;
  site : list event → page;
  dig : list event → result;
  operator : list event → answer
}.

(** * The state of a run *)

Record ZoneRecord := {
  zone_id : string;
  nameservers : string * string
}.

(** What the script prints, by the helper that prints it (colours left
    out).  [Printed] is what a tool wrote to standard output itself;
    [ShowBody] is an answer echoed as it came and [ShowZoneMap] the state
    file printed by jq, both without a model of their exact text.
    Messages of the tools on standard error are not recorded. *)
Inductive line :=
| Echo (s : string)
| EchoN (s : string)
| Info (s : string)
| Warn (s : string)
| Err (s : string)
| Header (s : string)
| Printed (s : string)
| ShowBody (t : text)
| ShowZoneMap (zm : gmap string ZoneRecord).

(** [zone_map] is the content of [$ZONE_MAP_FILE], [None] while the file
    does not exist.  [count], [created] and [skipped] are the shell
    variables of these names; they count records of one page of at most a
    hundred, far from where bash integers wrap. *)
Record machine := {
  zone_map : option (gmap string ZoneRecord);
  trace : list event;
  out : list line;
  count : Z;
  created : Z;
  skipped : Z
}.

Definition set_zone_map (zm : option (gmap string ZoneRecord)) (m : machine) : machine :=
  {| zone_map := zm; trace := trace m; out := out m;
     count := count m; created := created m; skipped := skipped m |}.
Definition set_trace (t : list event) (m : machine) : machine :=
  {| zone_map := zone_map m; trace := t; out := out m;
     count := count m; created := created m; skipped := skipped m |}.
Definition set_out (o : list line) (m : machine) : machine :=
  {| zone_map := zone_map m; trace := trace m; out := o;
     count := count m; created := created m; skipped := skipped m |}.
Definition set_count (n : Z) (m : machine) : machine :=
  {| zone_map := zone_map m; trace := trace m; out := out m;
     count := n; created := created m; skipped := skipped m |}.
Definition set_created (n : Z) (m : machine) : machine :=
  {| zone_map := zone_map m; trace := trace m; out := out m;
     count := count m; created := n; skipped := skipped m |}.
Definition set_skipped (n : Z) (m : machine) : machine :=
  {| zone_map := zone_map m; trace := trace m; out := out m;
     count := count m; created := created m; skipped := n |}.

(** * The shell monad: state, and exit *)

Inductive outcome (A : Type) :=
| Next (a : A)
| Exit (status : Z).
Arguments Next {A} a.
Arguments Exit {A} status.

Definition sh (A : Type) : Type := machine → outcome A * machine.

Definition ret {A} (a : A) : sh A := λ m, (Next a, m).

Definition bind {A B} (c : sh A) (k : A → sh B) : sh B := λ m,
  match c m with
  | (Next a, m') => k a m'
  | (Exit s, m') => (Exit s, m')
  end.

Definition die {A} (status : Z) : sh A := λ m, (Exit status, m).

Declare Scope sh_scope.
Delimit Scope sh_scope with sh.
Bind Scope sh_scope with sh.
Notation "x ← y ; z" := (bind y (λ x, z))
  (at level 20, y at level 100, z at level 200, only parsing) : sh_scope.
Notation "x ;; z" := (bind x (λ _, z))
  (at level 100, z at level 200, only parsing, right associativity) : sh_scope.

Local Open Scope sh_scope.

Fixpoint for_each {A} (l : list A) (body : A → sh unit) : sh unit :=
  match l with
  | [] => ret tt
  | x :: l' => body x ;; for_each l' body
  end.

(** [c || true]: whatever [c] did stays done, its failure is dropped. *)
Definition or_true (c : sh unit) : sh unit := λ m, (Next tt, snd (c m)).

(** [x=$(cmd)] under errexit: the value is the output without its
    trailing newlines, and a failing [cmd] ends the script with its
    status. *)
Definition run (r : result) : sh string :=
  if fst r =? 0 then ret (chomp (snd r)) else die (fst r).

(** The same where errexit does not apply ([|| true], or inside a function
    called on the left of [&&]). *)
Definition lax (r : result) : string := chomp (snd r).

(** [$(cmd || echo word)] *)
Definition or_echo (r : result) (word : string) : string :=
  if fst r =? 0 then chomp (snd r) else chomp (snd r +:+ word +:+ nl).

(** The status of [left | right] under pipefail, where [right] reads all
    of its input: the rightmost status that is not zero. *)
Definition pipe (left : Z) (right : result) : result :=
  (if fst right =? 0 then left else fst right, snd right).

(** A reply that is wanted whole: [x=$(cf ...)] under errexit. *)
Definition must (r : Z * text) : sh text :=
  if fst r =? 0 then ret (snd r) else die (fst r).

Definition say (l : line) : sh unit := λ m, (Next tt, set_out (l :: out m) m).
Definition echo (s : string) : sh unit := say (Echo s).
Definition echo_n (s : string) : sh unit := say (EchoN s).
Definition info (s : string) : sh unit := say (Info s).
Definition warn (s : string) : sh unit := say (Warn s).
Definition err (s : string) : sh unit := say (Err s).
Definition header (s : string) : sh unit := say (Header s).

(** A command that prints, on its own under errexit: what it printed is
    on the terminal, and a failure ends the script with its status. *)
Definition show (r : result) : sh unit :=
  say (Printed (snd r)) ;;
  if fst r =? 0 then ret tt else die (fst r).

(** [((v++))]: the variable goes up by one, and the status is 1 when the
    value of the expression, the old value, is zero.  As a command of its
    own that status ends the script. *)
Definition post_incr (get : machine → Z) (set : Z → machine → machine) : sh unit :=
  λ m, (if get m =? 0 then Exit 1 else Next tt, set (get m + 1) m).

(** Reading and setting a shell variable. *)
Definition load {A} (get : machine → A) : sh A := λ m, (Next (get m), m).
Definition store {A} (set : A → machine → machine) (a : A) : sh unit :=
  λ m, (Next tt, set a m).

(** [curl -sf]: silent, and an HTTP status from 400 on is a failure (22)
    with no output. *)
Definition curl_sf (r : reply) : Z * text :=
  match r with
  | Down s => (Z.pos s, Blank)
  | Http code body => if Nat.leb 400 code then (22, Blank) else (0, body)
  end.

(** [curl -s -o /dev/null -w "%{http_code}"] *)
Definition curl_code (down : option positive) (code : nat) : result :=
  match down with
  | Some s => (Z.pos s, "000")
  | None => (0, pretty code)
  end.

(** [obj] writes a JSON object from its members as the script spells its
    payloads out: keys between quotes, values as given. *)
Definition obj (members : list (string * string)) : string :=
  "{" +:+ join "," (map (λ kv, q (fst kv) +:+ ":" +:+ snd kv) members) +:+ "}".

(** * The script *)

(** The environment of the process: the two tokens, [$0], and the
    directory of the script, where the state directory lives. *)
Record environ := {
  CF_API_TOKEN : option string;
  DS_API_TOKEN : option string;
  script : string;
  script_dir : string
}.

Definition CF_ACCOUNT : string := "db45bb0a2f77daf6b206a366a124165d".
Definition DS_ACCOUNT : string := "5046".

(** The two bases; the path of an [Api] event is what follows its
    provider's base. *)
Definition CF_API : string := "https://api.cloudflare.com/client/v4".
Definition DS_API : string := "https://api.dnsimple.com/v2/" +:+ DS_ACCOUNT.

Definition DOMAINS : list string :=
  ["eewby.com"; "ellastrickland.com"; "idlefusion.com";
   "katiestrickland.com"; "mstrick.com"].

Section Script.

Variable w : world.
Variable env : environ.

Definition STATE_DIR : string := script_dir env +:+ "/.migration-state".
Definition ZONE_MAP_FILE : string := STATE_DIR +:+ "/zone-map.json".

(** ** Helpers *)

Definition ask (message : string) : sh answer := λ m,
  let t := Prompt message :: trace m in
  (Next (operator w t), set_trace t m).

(** [read] fails at the end of input, which ends the script; Ctrl+C
    ends it by the signal. *)
Definition confirm (message : string) : sh unit :=
  echo (nl +:+ "▸ " +:+ message) ;;
  a ← ask "  Press Enter to continue (Ctrl+C to abort)... ";
  match a with
  | Enter => echo ""
  | EndOfInput => die 1
  | Interrupt => die 130
  end.

Definition sleep (seconds : nat) : sh unit := λ m,
  (Next tt, set_trace (Sleep seconds :: trace m) m).

Definition request (p : provider) (method : method) (path : string)
    (data : option string) : sh reply := λ m,
  let t := Api p method path data :: trace m in
  (Next (api w t), set_trace t m).

(** Cloudflare API call: the status of curl, and the body it printed. *)
Definition cf (method : method) (path : string) (data : option string) : sh (Z * text) :=
  r ← request CF method path data; ret (curl_sf r).

(** DNSimple API call *)
Definition ds (method : method) (path : string) (data : option string) : sh (Z * text) :=
  r ← request DS method path data; ret (curl_sf r).

(** Reading the state file with jq, in an assignment under errexit: jq
    fails with status 2 when there is no file. *)
Definition read_zone_map (f : gmap string ZoneRecord → string) : sh string := λ m,
  match zone_map m with
  | None => (Exit 2, m)
  | Some zm => (Next (f zm), m)
  end.

(** Get zone ID from saved state: [.[$d].zone_id // empty] *)
Definition zone_id_for (domain : string) : sh string :=
  read_zone_map (λ zm, default "" (zone_id <$> zm !! domain)).

(** [.[$d].nameservers[i]] *)
Definition nameserver_for (first : bool) (domain : string) : sh string :=
  read_zone_map (λ zm,
    default "null" ((λ r, if first then fst (nameservers r) else snd (nameservers r))
                      <$> zm !! domain)).

(** [tmp=$(jq ... '.[$d] = {...}' FILE); echo "$tmp" > FILE] *)
Definition save_zone (domain zid ns1 ns2 : string) : sh unit := λ m,
  match zone_map m with
  | None => (Exit 2, m)
  | Some zm =>
      (Next tt,
       set_zone_map
         (Some (<[domain := {| zone_id := zid; nameservers := (ns1, ns2) |}]> zm)) m)
  end.

Definition f_success : filter := Key Dot "success".
Definition f_error : filter :=
  Alt (Key (Nth (Key Dot "errors") 0) "message") (Lit (JStr "unknown")).
Definition f_result : filter := Key Dot "result".

(** ** Step 2: Add zones to Cloudflare *)

Definition zone_payload (domain : string) : string :=
  obj [("name", q domain); ("account", obj [("id", q CF_ACCOUNT)]); ("type", q "full")].

Definition add_zone (domain : string) : sh unit :=
  (* Skip if already in state *)
  existing_id ← zone_id_for domain;
  if nonempty existing_id then
    info (domain +:+ " — already added (zone: " +:+ existing_id +:+ ")")
  else
    echo_n ("  Adding " +:+ domain +:+ "... ") ;;
    r ← cf POST "/zones" (Some (zone_payload domain));
    let result := snd r in
    success ← run (jq true f_success result);
    if String.eqb success "true" then
      zid ← run (jq true (Key f_result "id") result);
      ns1 ← run (jq true (Nth (Key f_result "name_servers") 0) result);
      ns2 ← run (jq true (Nth (Key f_result "name_servers") 1) result);
      save_zone domain zid ns1 ns2 ;;
      info (domain +:+ " — zone: " +:+ zid +:+ ", NS: " +:+ ns1 +:+ ", " +:+ ns2)
    else
      error_msg ← run (jq true f_error result);
      (* Zone may already exist on Cloudflare *)
      if grep_qi "already exists" error_msg then
        echo_n "(exists, fetching)... " ;;
        r ← cf GET ("/zones?name=" +:+ domain) None;
        result ← must r;
        zid ← run (jq true (Key (Nth f_result 0) "id") result);
        ns1 ← run (jq true (Nth (Key (Nth f_result 0) "name_servers") 0) result);
        ns2 ← run (jq true (Nth (Key (Nth f_result 0) "name_servers") 1) result);
        save_zone domain zid ns1 ns2 ;;
        info (domain +:+ " — zone: " +:+ zid +:+ ", NS: " +:+ ns1 +:+ ", " +:+ ns2)
      else
        err (domain +:+ " — " +:+ error_msg).

(** [mkdir -p], and an empty map when there is no file yet. *)
Definition init_zone_map : sh unit := λ m,
  match zone_map m with
  | None => (Next tt, set_zone_map (Some ∅) m)
  | Some _ => (Next tt, m)
  end.

Definition show_zone_map : sh unit := λ m,
  match zone_map m with
  | None => (Exit 2, m)
  | Some zm => say (ShowZoneMap zm) m
  end.

Definition step_add_zones : sh unit :=
  header "Step 2: Add zones to Cloudflare" ;;
  init_zone_map ;;
  for_each DOMAINS add_zone ;;
  echo "" ;;
  info ("Zone map saved to " +:+ ZONE_MAP_FILE) ;;
  show_zone_map.

(** ** Step 3: Create DNS records *)

Definition records_path (zid : string) : string := "/zones/" +:+ zid +:+ "/dns_records".

(** Delete all non-system records from a Cloudflare zone (clear auto-imports) *)
Definition clear_zone_records (zid domain : string) : sh unit :=
  r ← cf GET (records_path zid +:+ "?per_page=100") None;
  records ← must r;
  ids ← run (jq true (Key (Each f_result) "id") records);
  store set_count 0 ;;
  for_each (words ids) (λ id,
    or_true (_ ← cf DELETE (records_path zid +:+ "/" +:+ id) None; ret tt) ;;
    post_incr count set_count) ;;
  n ← load count;
  if 0 <? n then
    warn (domain +:+ " — cleared " +:+ pretty n +:+ " auto-imported records")
  else ret tt.

(** Create a single DNS record on Cloudflare.  Every call stands on the
    left of [&&], where errexit is off for the whole body: a jq that
    fails leaves its variable empty.  The value is whether the function
    returns 0. *)
Definition create_cf_record (zid data : string) : sh bool :=
  r ← cf POST (records_path zid) (Some data);
  let result := snd r in
  let success := lax (jq true f_success result) in
  if negb (String.eqb success "true") then
    let error_msg := lax (jq true f_error result) in
    err ("    Failed: " +:+ error_msg) ;;
    ret false
  else ret true.

(** [create_cf_record ... && ((created++)) || true] *)
Definition create_and_count (zid data : string) : sh unit :=
  ok ← create_cf_record zid data;
  if ok then or_true (post_incr created set_created) else ret tt.

(** The fields the loop reads off one line of the source's answer, each
    with [jq -r]. *)
Record source_record := {
  type : string;
  name : string;
  content : string;
  ttl : string;
  priority : string;
  system_record : string
}.

Definition read_record (record : json) : sh source_record :=
  type ← run (jq true (Key Dot "type") (Doc record));
  name ← run (jq true (Key Dot "name") (Doc record));
  content ← run (jq true (Key Dot "content") (Doc record));
  ttl ← run (jq true (Key Dot "ttl") (Doc record));
  priority ← run (jq true (Alt (Key Dot "priority") Void) (Doc record));
  system_record ← run (jq true (Key Dot "system_record") (Doc record));
  ret {| type := type; name := name; content := content; ttl := ttl;
         priority := priority; system_record := system_record |}.

(** Map empty name to @ for Cloudflare *)
Definition cf_name_of (name : string) : string :=
  if String.eqb name "" then "@" else name.

(** DNSimple SRV content format: weight port target *)
Definition srv_weight (content : string) : string := per_line (awk_print 1) content.
Definition srv_port (content : string) : string := per_line (awk_print 2) content.
Definition srv_target (content : string) : string :=
  per_line (λ l, strip_dot (awk_print 3 l)) content.
(** Parse service and proto from record name: _service._proto *)
Definition srv_service (name : string) : string := per_line (cut_dot 1) name.
Definition srv_proto (name : string) : string := per_line (cut_dot 2) name.

Definition plain_payload (type cf_name content : string) : string :=
  obj [("type", q type); ("name", q cf_name); ("content", q content);
       ("ttl", "1"); ("proxied", "false")].

Definition mx_payload (cf_name content priority : string) : string :=
  obj [("type", q "MX"); ("name", q cf_name); ("content", q content);
       ("ttl", "1"); ("priority", or_default priority "10")].

Definition txt_payload (cf_name content : string) : string :=
  obj [("type", q "TXT"); ("name", q cf_name); ("content", json_quote content);
       ("ttl", "1")].

Definition srv_payload (domain name content priority : string) : string :=
  obj [("type", q "SRV"); ("name", q (name +:+ "." +:+ domain));
       ("data", obj [("service", q (srv_service name));
                     ("proto", q (srv_proto name));
                     ("name", q domain);
                     ("priority", or_default priority "0");
                     ("weight", srv_weight content);
                     ("port", srv_port content);
                     ("target", q (srv_target content))])].

Definition url_payload (cf_name : string) : string :=
  obj [("type", q "A"); ("name", q cf_name); ("content", q "192.0.2.1");
       ("ttl", "1"); ("proxied", "true")].

(** The [case "$type"] of the loop, for a record that is not a system
    record. *)
Definition migrate (zid domain : string) (r : source_record) : sh unit :=
  let cf_name := cf_name_of (name r) in
  if String.eqb (type r) "A" || String.eqb (type r) "AAAA" then
    info ("  " +:+ type r +:+ " " +:+ cf_name +:+ " → " +:+ content r) ;;
    create_and_count zid (plain_payload (type r) cf_name (content r))
  else if String.eqb (type r) "CNAME" then
    info ("  CNAME " +:+ cf_name +:+ " → " +:+ content r) ;;
    create_and_count zid (plain_payload "CNAME" cf_name (content r))
  else if String.eqb (type r) "ALIAS" then
    (* Cloudflare supports CNAME at apex via auto-flattening *)
    info ("  CNAME " +:+ cf_name +:+ " → " +:+ content r +:+ " (from ALIAS, DNS-only)") ;;
    create_and_count zid (plain_payload "CNAME" cf_name (content r))
  else if String.eqb (type r) "MX" then
    info ("  MX " +:+ cf_name +:+ " → " +:+ content r +:+ " (pri: " +:+ priority r +:+ ")") ;;
    create_and_count zid (mx_payload cf_name (content r) (priority r))
  else if String.eqb (type r) "TXT" then
    info ("  TXT " +:+ cf_name +:+ " → " +:+ take_chars 60 (content r) +:+ "...") ;;
    create_and_count zid (txt_payload cf_name (content r))
  else if String.eqb (type r) "SRV" then
    info ("  SRV " +:+ name r +:+ " → " +:+ srv_target (content r) +:+ ":" +:+
          srv_port (content r) +:+ " (pri: " +:+ or_default (priority r) "0" +:+
          ", w: " +:+ srv_weight (content r) +:+ ")") ;;
    create_and_count zid (srv_payload domain (name r) (content r) (priority r))
  else if String.eqb (type r) "URL" then
    (* URL redirects need a proxied A record + redirect rule (Step 4) *)
    warn ("  URL " +:+ cf_name +:+ " → " +:+ content r +:+ " (redirect rule needed)") ;;
    (if negb (String.eqb cf_name "@") then
       info ("    Creating proxied A record: " +:+ cf_name +:+ " → 192.0.2.1") ;;
       create_and_count zid (url_payload cf_name)
     else ret tt) ;;
    post_incr skipped set_skipped
  else
    warn ("  Skipping unknown type: " +:+ type r +:+ " " +:+ cf_name +:+ " → " +:+ content r) ;;
    post_incr skipped set_skipped.

(** One turn of the [while read] loop. *)
Definition process_record (zid domain : string) (record : json) : sh unit :=
  r ← read_record record;
  (* Skip system records (SOA, NS managed by provider) *)
  if String.eqb (system_record r) "true" then ret tt
  else migrate zid domain r.

(** One turn of the loop over the domains. *)
Definition create_records_for (domain : string) : sh unit :=
  zid ← zone_id_for domain;
  if String.eqb zid "" then
    err (domain +:+ " — no zone ID found, run add-zones first")
  else
    echo (domain +:+ " (zone: " +:+ zid +:+ ")") ;;
    (* Clear any auto-imported records *)
    clear_zone_records zid domain ;;
    (* Fetch all records from DNSimple *)
    r ← ds GET ("/zones/" +:+ domain +:+ "/records?per_page=100") None;
    ds_records ← must r;
    total ← run (jq false (Length (Key Dot "data")) ds_records);
    info ("  Fetched " +:+ total +:+ " records from DNSimple") ;;
    (* Process records *)
    store set_created 0 ;;
    store set_skipped 0 ;;
    for_each (jq_c (Each (Key Dot "data")) ds_records) (process_record zid domain) ;;
    c ← load created;
    s ← load skipped;
    info ("  " +:+ domain +:+ ": " +:+ pretty c +:+ " created, " +:+ pretty s +:+ " skipped") ;;
    echo "".

Definition step_create_records : sh unit :=
  header "Step 3: Create DNS records from DNSimple" ;;
  for_each DOMAINS create_records_for.

(** ** Step 4: Create redirect rules *)

Definition redirect_payload : string :=
  join nl
    ["{";
     "    " +:+ q "name" +:+ ": " +:+ q "Redirects" +:+ ",";
     "    " +:+ q "kind" +:+ ": " +:+ q "zone" +:+ ",";
     "    " +:+ q "phase" +:+ ": " +:+ q "http_request_dynamic_redirect" +:+ ",";
     "    " +:+ q "rules" +:+ ": [{";
     "      " +:+ q "expression" +:+ ": " +:+
       q ("(http.host eq \" +:+ dq +:+ "hire.mstrick.com\" +:+ dq +:+ ")") +:+ ",";
     "      " +:+ q "description" +:+ ": " +:+ q "hire.mstrick.com -> mstrick.com/hire" +:+ ",";
     "      " +:+ q "action" +:+ ": " +:+ q "redirect" +:+ ",";
     "      " +:+ q "action_parameters" +:+ ": {";
     "        " +:+ q "from_value" +:+ ": {";
     "          " +:+ q "status_code" +:+ ": 301,";
     "          " +:+ q "target_url" +:+ ": {";
     "            " +:+ q "value" +:+ ": " +:+ q "https://mstrick.com/hire";
     "          },";
     "          " +:+ q "preserve_query_string" +:+ ": false";
     "        }";
     "      }";
     "    }]";
     "  }"].

(** The function returns 1 when the zone is not known; at both places it
    is called from, errexit turns that into the end of the script. *)
Definition step_create_redirects : sh unit :=
  header "Step 4: Create redirect rules" ;;
  (* mstrick.com: hire.mstrick.com → https://mstrick.com/hire (301) *)
  zid ← zone_id_for "mstrick.com";
  if String.eqb zid "" then
    err "mstrick.com zone ID not found" ;;
    die 1
  else
    info "Creating redirect: hire.mstrick.com → https://mstrick.com/hire" ;;
    r ← cf POST ("/zones/" +:+ zid +:+ "/rulesets") (Some redirect_payload);
    let result := snd r in
    success ← run (jq true f_success result);
    if String.eqb success "true" then info "Redirect rule created"
    else
      error_msg ← run (jq true f_error result);
      err ("Failed to create redirect: " +:+ error_msg) ;;
      show (jq false (Key Dot "errors") result).

(** ** Step 5: Switch nameservers *)

Definition switch_nameservers_for (domain : string) : sh unit :=
  ns1 ← nameserver_for true domain;
  ns2 ← nameserver_for false domain;
  if String.eqb ns1 "" || String.eqb ns1 "null" then
    err (domain +:+ " — no nameservers found in state")
  else
    confirm ("Switch " +:+ domain +:+ " to Cloudflare NS? (" +:+ ns1 +:+ ", " +:+ ns2 +:+ ")") ;;
    echo_n ("  Updating " +:+ domain +:+ "... ") ;;
    r ← ds PUT ("/registrar/domains/" +:+ domain +:+ "/delegation")
           (Some ("[" +:+ q ns1 +:+ "," +:+ q ns2 +:+ "]"));
    let result := snd r in
    (if fst (jq_e (Key Dot "data") result) =? 0 then
       info (domain +:+ " — nameservers updated") ;;
       show (jq false (Key Dot "data") result)
     else
       err (domain +:+ " — failed to update nameservers") ;;
       say (ShowBody result)) ;;
    (* Brief pause between domains *)
    sleep 2.

Definition step_switch_nameservers : sh unit :=
  header "Step 5: Switch nameservers at DNSimple" ;;
  echo "WARNING: This changes live DNS for all domains." ;;
  echo "DNS propagation can take 1-48 hours. Services may be briefly unreachable." ;;
  echo "" ;;
  for_each DOMAINS switch_nameservers_for.

(** ** Step 6: Verify *)

Definition lookup (args : list string) : sh result := λ m,
  let t := Dig args :: trace m in
  (Next (dig w t), set_trace t m).

Definition probe (head_only : bool) (url : string) : sh page := λ m,
  let t := Site head_only url :: trace m in
  (Next (site w t), set_trace t m).

(** The lines a [while read] loop or [sort] gets: what stands before each
    newline. *)
Definition whole_lines (s : string) : list string := removelast (lines s).

Definition verify_zone (domain : string) : sh unit :=
  zid ← zone_id_for domain;
  if String.eqb zid "" then err ("  " +:+ domain +:+ " — no zone ID")
  else
    r ← cf GET ("/zones/" +:+ zid) None;
    status ← run (pipe (fst r) (jq true (Key f_result "status") (snd r)));
    if String.eqb status "active" then info ("  " +:+ domain +:+ ": " +:+ status)
    else warn ("  " +:+ domain +:+ ": " +:+ status +:+ " (may need time to propagate)").

Definition verify_resolution (domain : string) : sh unit :=
  echo_n ("  " +:+ domain +:+ ": ") ;;
  r ← lookup ["+short"; domain];
  show (fst r, lf_to_space (snd r)) ;;
  echo "".

Definition urls : list string :=
  ["https://idlefusion.com"; "https://www.idlefusion.com";
   "https://ellastrickland.com"; "https://mstrick.com";
   "https://katiestrickland.com"; "https://gather25.idlefusion.com";
   "https://runeasy.app"].

Definition verify_url (url : string) : sh unit :=
  echo_n ("  " +:+ url +:+ ": ") ;;
  p ← probe false url;
  let code :=
    or_echo (match p with
             | Unreachable s => curl_code (Some s) 0
             | Page c _ => curl_code None c
             end) "TIMEOUT" in
  if String.eqb code "200" || String.eqb code "301" || String.eqb code "302"
  then info code else warn code.

(** [curl -sI url | grep -i '^location:' | tr -d '\r'], in an assignment
    under errexit: grep fails when no line matches. *)
Definition location_of (p : page) : result :=
  let found :=
    match p with
    | Unreachable _ => []
    | Page _ headers => List.filter (λ l, String.prefix "location:" (lower l)) headers
    end in
  let curl_status := match p with Unreachable s => Z.pos s | Page _ _ => 0 end in
  pipe curl_status
       (if Nat.eqb (length found) 0 then 1 else 0,
        String.concat "" (map (λ l, delete_cr l +:+ nl) found)).

Definition verify_nameservers (domain : string) : sh unit :=
  echo_n ("  " +:+ domain +:+ ": ") ;;
  r ← lookup ["NS"; domain; "+short"];
  show (fst r, String.concat "" (map (λ l, l +:+ " ")
                 (merge_sort String.le (whole_lines (snd r))))) ;;
  echo "".

(** [read -r line] drops the blanks around the line. *)
Fixpoint ltrim (s : string) : string :=
  match s with
  | "" => ""
  | String a s' => if is_blank a then ltrim s' else s
  end.
Definition trim (s : string) : string :=
  String.rev (ltrim (String.rev (ltrim s))).

Definition step_verify : sh unit :=
  header "Step 6: Verify DNS migration" ;;
  (* Zone activation status *)
  echo "Zone activation:" ;;
  for_each DOMAINS verify_zone ;;
  (* Also check runeasy.app *)
  r ← cf GET "/zones/f922dcb27d4db9d1fa2809a5c8b72a50" None;
  runeasy_status ← run (pipe (fst r) (jq true (Key f_result "status") (snd r)));
  info ("  runeasy.app: " +:+ runeasy_status) ;;
  (* DNS resolution *)
  echo (nl +:+ "DNS resolution (dig):") ;;
  for_each DOMAINS verify_resolution ;;
  (* Key HTTPS endpoints *)
  echo (nl +:+ "HTTPS checks:") ;;
  for_each urls verify_url ;;
  (* Redirect check *)
  echo (nl +:+ "Redirect checks:") ;;
  echo_n "  hire.mstrick.com: " ;;
  p ← probe true "https://hire.mstrick.com";
  location ← run (location_of p);
  (if nonempty location then info location
   else warn "no redirect (may need proxy to activate)") ;;
  (* MX records *)
  echo (nl +:+ "MX records (idlefusion.com):") ;;
  r ← lookup ["MX"; "idlefusion.com"; "+short"];
  for_each (whole_lines (snd r)) (λ l, echo ("  " +:+ trim l)) ;;
  (if fst r =? 0 then ret tt else die (fst r)) ;;
  (* Nameserver check *)
  echo (nl +:+ "Current nameservers:") ;;
  for_each DOMAINS verify_nameservers.

(** ** Step 7: Unlock domains for transfer *)

Definition unlock_domain (domain : string) : sh unit :=
  confirm ("Unlock " +:+ domain +:+ " for transfer?") ;;
  echo_n ("  Unlocking " +:+ domain +:+ "... ") ;;
  r ← request DS POST ("/registrar/domains/" +:+ domain +:+ "/authorize_transfer_out") None;
  http_code ← run (match r with
                   | Down s => curl_code (Some s) 0
                   | Http c _ => curl_code None c
                   end);
  if String.eqb http_code "204" then
    info (domain +:+ " unlocked — check email for auth code")
  else err (domain +:+ " — HTTP " +:+ http_code).

Definition step_unlock_domains : sh unit :=
  header "Step 7: Unlock domains for transfer out" ;;
  echo "This will unlock each domain and email the auth/EPP code" ;;
  echo "to the registrant contact (matthew@idlefusion.com)." ;;
  echo "" ;;
  echo "After receiving the codes, go to:" ;;
  echo "  Cloudflare Dashboard → Registrar → Transfer Domains" ;;
  echo "" ;;
  for_each (DOMAINS ++ ["runeasy.app"]) unlock_domain ;;
  echo "" ;;
  info "All domains processed." ;;
  echo "" ;;
  echo "Next steps:" ;;
  echo "  1. Check matthew@idlefusion.com for auth/EPP codes" ;;
  echo "  2. Go to Cloudflare Dashboard → Registrar → Transfer Domains" ;;
  echo "  3. Enter auth code for each domain and confirm payment" ;;
  echo "  4. Transfers take 5-7 days to complete" ;;
  echo "" ;;
  warn "Note: runeasy.app (registered 2026-01-26) must wait until ~March 27" ;;
  warn "for 60-day transfer eligibility.".

(** ** Token validation *)

Definition validate_tokens : sh unit :=
  echo_n "Validating Cloudflare token... " ;;
  r ← cf GET "/user/tokens/verify" None;
  let cf_status :=
    or_echo (pipe (fst r) (jq true (Key f_result "status") (snd r))) "failed" in
  (if String.eqb cf_status "active" then info "active"
   else err cf_status ;; die 1) ;;
  echo_n "Validating DNSimple token... " ;;
  r ← ds GET "" None;
  let ds_plan :=
    or_echo (pipe (fst r) (jq true (Key (Key Dot "data") "plan_identifier") (snd r)))
            "failed" in
  if negb (String.eqb ds_plan "failed") then info ("OK (plan: " +:+ ds_plan +:+ ")")
  else err "failed" ;; die 1.

(** ** Main *)

Definition run_all : sh unit :=
  echo "╔═══════════════════════════════════════════════════╗" ;;
  echo "║   DNSimple → Cloudflare DNS Migration             ║" ;;
  echo ("║   Domains: " +:+ join " " DOMAINS +:+ "  ║") ;;
  echo "╚═══════════════════════════════════════════════════╝" ;;
  echo "" ;;
  validate_tokens ;;
  confirm "Step 2: Add zones to Cloudflare?" ;;
  step_add_zones ;;
  confirm "Step 3: Create DNS records (clears auto-imports first)?" ;;
  step_create_records ;;
  confirm "Step 4: Create redirect rules?" ;;
  step_create_redirects ;;
  confirm "Step 5: Switch nameservers at DNSimple (CHANGES LIVE DNS)?" ;;
  step_switch_nameservers ;;
  echo "" ;;
  info "Nameservers switched. Propagation may take 1-48 hours." ;;
  confirm "Step 6: Run verification checks?" ;;
  step_verify ;;
  confirm "Step 7: Unlock domains for transfer? (auth codes emailed)" ;;
  step_unlock_domains ;;
  echo "" ;;
  info "Migration script complete!" ;;
  echo "" ;;
  echo "Remaining manual steps:" ;;
  echo "  1. Enter transfer auth codes in Cloudflare dashboard" ;;
  echo "  2. Wait for transfers to complete (5-7 days)" ;;
  echo "  3. Cancel DNSimple subscription".

(** ** CLI entry point *)

(** [local] at the top level of the script, outside every function: bash
    refuses it with status 1, and errexit ends the script. *)
Definition local_outside_function : sh unit := die 1.

(** Load zone IDs from state or fetch them: the body of the loop that the
    verify entry runs when there is no state file. *)
Definition fetch_zone (domain : string) : sh unit :=
  local_outside_function ;;
  r ← cf GET ("/zones?name=" +:+ domain) None;
  result ← must r;
  zid ← run (jq true (Alt (Key (Nth f_result 0) "id") Void) result);
  ns1 ← run (jq true (Alt (Nth (Key (Nth f_result 0) "name_servers") 0) Void) result);
  ns2 ← run (jq true (Alt (Nth (Key (Nth f_result 0) "name_servers") 1) Void) result);
  if nonempty zid then save_zone domain zid ns1 ns2 else ret tt.

Definition load_or_fetch_zone_ids : sh unit :=
  has_file ← load (λ m, bool_decide (is_Some (zone_map m)));
  if negb has_file then
    echo "No state file found. Fetching zone IDs from Cloudflare..." ;;
    store set_zone_map (Some ∅) ;;
    for_each DOMAINS fetch_zone
  else ret tt.

Inductive step :=
| AddZones | CreateRecords | CreateRedirects | SwitchNs | Verify | Unlock | All.

(** The patterns of the final [case]. *)
Definition select (word : string) : option step :=
  if String.eqb word "add-zones" then Some AddZones
  else if String.eqb word "create-records" then Some CreateRecords
  else if String.eqb word "create-redirects" then Some CreateRedirects
  else if String.eqb word "switch-ns" then Some SwitchNs
  else if String.eqb word "verify" then Some Verify
  else if String.eqb word "unlock" then Some Unlock
  else if String.eqb word "all" then Some All
  else None.

Definition run_step (s : step) : sh unit :=
  match s with
  | AddZones => validate_tokens ;; step_add_zones
  | CreateRecords => validate_tokens ;; step_create_records
  | CreateRedirects => validate_tokens ;; step_create_redirects
  | SwitchNs => validate_tokens ;; step_switch_nameservers
  | Verify => load_or_fetch_zone_ids ;; validate_tokens ;; step_verify
  | Unlock => validate_tokens ;; step_unlock_domains
  | All => run_all
  end.

Definition usage : string :=
  "Usage: " +:+ script env +:+
  " [add-zones|create-records|create-redirects|switch-ns|verify|unlock|all]".

(** [${VAR:?message}]: unset or empty ends the script with status 1. *)
Definition required (v : option string) : sh string :=
  match v with
  | Some t => if nonempty t then ret t else die 1
  | None => die 1
  end.

(** The script from its first line, with its positional parameters. *)
Definition main (args : list string) : sh unit :=
  _ ← required (CF_API_TOKEN env);
  _ ← required (DS_API_TOKEN env);
  match select (or_default (hd "" args) "all") with
  | Some s => run_step s
  | None => echo usage ;; die 1
  end.

End Script.

(** * Scenarios *)

(** Concrete providers, environment and states, for the examples. *)
Module Scenario.

Definition answer_with (v : json) : reply := Http 200 (Doc v).

(** A record as the source lists it. *)
Definition listed (type name content : string) (priority : json) (system : bool) : json :=
  JObj [("id", JNum 1); ("zone_id", JStr "eewby.com"); ("type", JStr type);
        ("name", JStr name); ("content", JStr content); ("ttl", JNum 3600);
        ("priority", priority); ("system_record", JBool system)].

(** Both tokens are valid; the target zone [z1] holds the records
    [existing]; the source lists [source] for eewby.com; every creation
    and deletion is accepted.  Nobody sits at the terminal. *)
Definition providers (existing : list string) (source : list json) : world :=
  {| api := λ t,
       match t with
       | Api CF GET "/user/tokens/verify" _ :: _ =>
           answer_with (JObj [("success", JBool true);
                              ("result", JObj [("status", JStr "active")])])
       | Api DS GET "" _ :: _ =>
           answer_with (JObj [("data", JObj [("plan_identifier", JStr "solo-v2")])])
       | Api CF GET "/zones/z1/dns_records?per_page=100" _ :: _ =>
           answer_with (JObj [("success", JBool true);
                              ("result", JArr (map (λ id, JObj [("id", JStr id)]) existing))])
       | Api DS GET "/zones/eewby.com/records?per_page=100" _ :: _ =>
           answer_with (JObj [("data", JArr source)])
       | Api CF POST _ _ :: _ =>
           answer_with (JObj [("success", JBool true);
                              ("result", JObj [("id", JStr "r9")])])
       | Api CF DELETE _ _ :: _ =>
           answer_with (JObj [("success", JBool true)])
       | _ => Http 404 Blank
       end;
     site := λ _, Unreachable 7;
     dig := λ _, (0, "");
     operator := λ _, EndOfInput |}.

Definition tokens : environ :=
  {| CF_API_TOKEN := Some "cf-token"; DS_API_TOKEN := Some "ds-token";
     script := "./scripts/cloudflare-migration.sh"; script_dir := "/site/scripts" |}.

Definition no_tokens : environ :=
  {| CF_API_TOKEN := None; DS_API_TOKEN := None;
     script := "./scripts/cloudflare-migration.sh"; script_dir := "/site/scripts" |}.

(** The state file after add-zones succeeded for eewby.com only. *)
Definition one_zone : gmap string ZoneRecord :=
  {[ "eewby.com" := {| zone_id := "z1";
                       nameservers := ("ada.ns.cloudflare.com", "bob.ns.cloudflare.com") |} ]}.

Definition start (file : option (gmap string ZoneRecord)) : machine :=
  {| zone_map := file; trace := []; out := []; count := 0; created := 0; skipped := 0 |}.

Definition caa : json :=
  listed "CAA" "" ("0 issue " +:+ q "letsencrypt.org") JNull false.
Definition www : json := listed "A" "www" "192.0.2.10" JNull false.
Definition mail : json := listed "MX" "" "mx.example.net" JNull false.
Definition sip : json := listed "SRV" "_sip._tcp" "10 5060 sip.example.com." (JNum 5) false.
Definition soa : json := listed "SOA" "" "ns1.dnsimple.com admin.dnsimple.com 1 2 3 4 5" JNull true.
Definition url_apex : json := listed "URL" "" "https://www.eewby.com" JNull false.
Definition url_hire : json := listed "URL" "hire" "https://mstrick.com/hire" JNull false.

End Scenario.

(** * The vocabulary of the claims *)

(** [stays R c]: whatever state [c] starts from, and whether it ends the
    script or not, the state it leaves is related to the first by [R]. *)
Definition stays (R : relation machine) {A} (c : sh A) : Prop :=
  ∀ m, R m (snd (c m)).

(** The relation the claims need: the trace has grown by events that all
    satisfy [P], and the state file went from one content to another
    as [Q] allows.  Output and counters are free. *)
Definition grows (P : event → Prop)
    (Q : relation (option (gmap string ZoneRecord))) : relation machine :=
  λ m m', (∃ new, trace m' = new ++ trace m ∧ Forall P new) ∧
          Q (zone_map m) (zone_map m').

Definition zone_record (m : machine) (domain : string) : option ZoneRecord :=
  zone_map m ≫= (.!! domain).

Definition stored_zone_id (m : machine) (domain : string) : string :=
  default "" (zone_id <$> zone_record m domain).

(** No request creates a zone for [d], and the record of [d] in the state
    file is the same before and after. *)
Definition no_creation (d : string) : event → Prop :=
  λ e, e ≠ Api CF POST "/zones" (Some (zone_payload d)).
Definition same_record (d : string) : relation (option (gmap string ZoneRecord)) :=
  λ zm zm', zm' ≫= (.!! d) = zm ≫= (.!! d).

(** What a run owes to a domain that the state file knows. *)
Definition kept (d : string) : relation machine :=
  λ m m', stored_zone_id m d ≠ "" → grows (no_creation d) (same_record d) m m'.

(** When every domain of the list is known, a run asks for nothing to be
    created and leaves the file as it is. *)
Definition no_post : event → Prop := λ e, ∀ p path data, e ≠ Api p POST path data.

Definition settled : relation machine :=
  λ m m', (∀ d', d' ∈ DOMAINS → stored_zone_id m d' ≠ "") → grows no_post eq m m'.

(** An event that changes nothing at a provider: a GET, or anything that
    is not a request to a provider. *)
Definition read_only (e : event) : Prop :=
  match e with
  | Api _ meth _ _ => meth = GET
  | _ => True
  end.

(** A state file that exists keeps its content. *)
Definition file_kept : relation (option (gmap string ZoneRecord)) :=
  λ zm zm', is_Some zm → zm' = zm.

(** [${VAR:?}] lets the script go on. *)
Definition exported (v : option string) : Prop := ∃ t, v = Some t ∧ t ≠ "".

(** Whether Cloudflare accepts the record that [create_cf_record] posts
    from state [m]: the answer says [success: true]. *)
Definition accepts (w : world) (zid data : string) (m : machine) : bool :=
  String.eqb
    (lax (jq true f_success
            (snd (curl_sf (api w (Api CF POST (records_path zid) (Some data) :: trace m))))))
    "true".

(** * The vocabulary of the further properties *)

(** A request that changes something at DNSimple. *)
Definition ds_write (e : event) : Prop :=
  match e with
  | Api DS meth _ _ => meth ≠ GET
  | _ => False
  end.

(** A trace (newest event first) in which every change at DNSimple comes
    right after a prompt that the operator answered with Enter. *)
Fixpoint gated (w : world) (t : list event) : Prop :=
  match t with
  | [] => True
  | e :: t' =>
      gated w t' ∧
      (ds_write e → ∃ msg t'', t' = Prompt msg :: t'' ∧ operator w t' = Enter)
  end.

(** A run keeps the trace gated. *)
Definition gate_kept (w : world) : relation machine :=
  λ m m', gated w (trace m) → gated w (trace m').

(** The last thing that happened is a prompt, answered with Enter. *)
Definition armed (w : world) (m : machine) : Prop :=
  ∃ msg t, trace m = Prompt msg :: t ∧ operator w (trace m) = Enter.

(** The state file grows: it stays in place, no domain leaves it, and what
    it holds for a domain outside the list stays as it is. *)
Definition file_grows : relation (option (gmap string ZoneRecord)) :=
  λ file file', ∀ zm, file = Some zm →
    ∃ zm', file' = Some zm' ∧ dom zm ⊆ dom zm' ∧
           ∀ d, d ∉ DOMAINS → zm' !! d = zm !! d.

(** What the script may ask of DNSimple: to read, to delegate a listed
    domain, to authorize the transfer of a listed domain or of
    runeasy.app. *)
Definition ds_request_ok (e : event) : Prop :=
  match e with
  | Api DS GET _ None => True
  | Api DS PUT path (Some _) =>
      ∃ d, d ∈ DOMAINS ∧ path = "/registrar/domains/" +:+ d +:+ "/delegation"
  | Api DS POST path None =>
      ∃ d, d ∈ DOMAINS ++ ["runeasy.app"] ∧
           path = "/registrar/domains/" +:+ d +:+ "/authorize_transfer_out"
  | Api DS _ _ _ => False
  | _ => True
  end.



Definition is_delete (e : event) : Prop :=
  match e with
  | Api _ DELETE _ _ => True
  | _ => False
  end.

(** Hoare triples for the runs that go on: from a state in [pre], a run of
    [c] that does not end the script leaves a state in [post]. *)
Definition triple {A} (pre : machine → Prop) (c : sh A) (post : machine → Prop) : Prop :=
  ∀ m a m', pre m → c m = (Next a, m') → post m'.


(** Since the trace [base], no DELETE was sent; ... and the counter of
    cleared records stands at 0; ... and the counter of skipped records
    too. *)
Definition undeleted (base : list event) (m : machine) : Prop :=
  ∃ new, trace m = new ++ base ∧ Forall (λ e, ¬ is_delete e) new.

Definition uncounted (base : list event) (m : machine) : Prop :=
  undeleted base m ∧ count m = 0.

Definition unskipped (base : list event) (m : machine) : Prop :=
  undeleted base m ∧ count m = 0 ∧ skipped m = 0.

(** The character [c] is nowhere in [s]. *)
Fixpoint without (c : ascii) (s : string) : bool :=
  match s with
  | "" => true
  | String a s' => negb (Ascii.eqb c a) && without c s'
  end.

(** * Further scenarios *)

Module Cases.

Import Scenario.

(** The providers of [Scenario.providers], where DNSimple also grants every
    transfer authorization, and an operator who answers every prompt with
    Enter. *)
Definition attended (existing : list string) (source : list json) : world :=
  {| api := λ t,
       match t with
       | Api DS POST _ _ :: _ => Http 204 Blank
       | _ => api (providers existing source) t
       end;
     site := site (providers existing source);
     dig := dig (providers existing source);
     operator := λ _, Enter |}.


(** Cloudflare creates the zone it is asked for. *)
Definition creating : world :=
  {| api := λ t,
       match t with
       | Api CF POST "/zones" _ :: _ =>
           answer_with
             (JObj [("success", JBool true);
                    ("result",
                     JObj [("id", JStr "z5");
                           ("name_servers",
                            JArr [JStr "ada.ns.cloudflare.com";
                                  JStr "bob.ns.cloudflare.com"])])])
       | _ => api (providers [] []) t
       end;
     site := site (providers [] []);
     dig := dig (providers [] []);
     operator := λ _, EndOfInput |}.

(** A state file that exists and knows no domain. *)
Definition fresh : machine := start (Some ∅).


(** Records as the loop of step 3 reads them. *)
Definition mx_record : source_record :=
  {| type := "MX"; name := ""; content := "mx.example.net"; ttl := "3600";
     priority := "20"; system_record := "false" |}.
Definition alias_record : source_record :=
  {| type := "ALIAS"; name := ""; content := "eewby.github.io"; ttl := "3600";
     priority := ""; system_record := "false" |}.

End Cases.

(** * Facts about text *)

Lemma append_cons (x : ascii) (a b : string) : String x a +:+ b = String x (a +:+ b).
Proof. reflexivity. Qed.

Lemma append_assoc (a b c : string) : (a +:+ b) +:+ c = a +:+ (b +:+ c).
Proof. induction a as [|x a IH]; [done|]. by rewrite !append_cons, IH. Qed.

Lemma append_length (a b : string) :
  String.length (a +:+ b) = (String.length a + String.length b)%nat.
Proof.
  induction a as [|x a IH]; [done|].
  rewrite append_cons. cbn [String.length]. by rewrite IH.
Qed.

Lemma append_inv_tail (a b c : string) : a +:+ c = b +:+ c → a = b.
Proof.
  revert b. induction a as [|x a IH]; intros [|y b] H; [done| | |].
  - apply (f_equal String.length) in H.
    rewrite append_cons in H. cbn [String.length] in H.
    rewrite !append_length in H. cbn [String.length] in H. lia.
  - apply (f_equal String.length) in H.
    rewrite append_cons in H. cbn [String.length] in H.
    rewrite !append_length in H. cbn [String.length] in H. lia.
  - rewrite !append_cons in H. injection H as -> H. f_equal. by apply IH.
Qed.

(** The payload of a zone creation is the domain between two fixed texts,
    so two domains never share one. *)
Lemma zone_payload_shape (d : string) :
  zone_payload d =
  ("{" +:+ q "name" +:+ ":" +:+ dq) +:+ d +:+
  (dq +:+ "," +:+ q "account" +:+ ":" +:+ obj [("id", q CF_ACCOUNT)] +:+ "," +:+
   q "type" +:+ ":" +:+ q "full" +:+ "}").
Proof.
  unfold zone_payload, obj, q. cbn [map fst snd join].
  rewrite !append_assoc. reflexivity.
Qed.

Lemma zone_payload_inj (d d' : string) : zone_payload d = zone_payload d' → d = d'.
Proof.
  rewrite !zone_payload_shape. intros H.
  apply String.app_inj in H. by apply append_inv_tail in H.
Qed.

(** * What a run leaves in place *)

(** The rules of [stays], for any relation that is reflexive and
    transitive. *)
Section Stays.

Variable R : relation machine.
Context `{!Reflexive R, !Transitive R}.

Lemma stays_ret {A} (a : A) : stays R (ret a).
Proof. intros m. reflexivity. Qed.

Lemma stays_die {A} (s : Z) : stays R (@die A s).
Proof. intros m. reflexivity. Qed.

Lemma stays_bind {A B} (c : sh A) (k : A → sh B) :
  stays R c → (∀ a, stays R (k a)) → stays R (bind c k).
Proof.
  intros Hc Hk m. unfold bind. specialize (Hc m).
  destruct (c m) as [[a|s] m']; cbn [snd] in *; [|done].
  etrans; [exact Hc | apply Hk].
Qed.

Lemma stays_for_each {A} (l : list A) (body : A → sh unit) :
  (∀ x, x ∈ l → stays R (body x)) → stays R (for_each l body).
Proof.
  induction l as [|x l IH]; intros H; cbn [for_each].
  - apply stays_ret.
  - apply stays_bind; [apply H; left | intros _; apply IH].
    intros y Hy. apply H. by right.
Qed.

Lemma stays_or_true (c : sh unit) : stays R c → stays R (or_true c).
Proof. intros H m. apply H. Qed.

Lemma stays_run (r : result) : stays R (run r).
Proof. unfold run. destruct (fst r =? 0); [apply stays_ret | apply stays_die]. Qed.

Lemma stays_must (r : Z * text) : stays R (must r).
Proof. unfold must. destruct (fst r =? 0); [apply stays_ret | apply stays_die]. Qed.

Lemma stays_load {A} (get : machine → A) : stays R (load get).
Proof. intros m. reflexivity. Qed.

Lemma stays_required (v : option string) : stays R (required v).
Proof.
  unfold required. destruct v as [t|]; [|apply stays_die].
  destruct (nonempty t); [apply stays_ret | apply stays_die].
Qed.

End Stays.

Section Grows.

Variable P : event → Prop.
Variable Q : relation (option (gmap string ZoneRecord)).
Context `{!Reflexive Q, !Transitive Q}.

#[export] Instance grows_refl : Reflexive (grows P Q).
Proof. intros m. split; [by exists [] | reflexivity]. Qed.

#[export] Instance grows_trans : Transitive (grows P Q).
Proof.
  intros m1 m2 m3 [(n1 & E1 & F1) Q1] [(n2 & E2 & F2) Q2]. split.
  - exists (n2 ++ n1). rewrite E2, E1, app_assoc. split; [done|].
    by apply Forall_app.
  - by etrans.
Qed.

(** A step that touches neither the trace nor the state file. *)
Lemma grows_quiet (m m' : machine) :
  trace m' = trace m → zone_map m' = zone_map m → grows P Q m m'.
Proof. intros Ht Hz. split; [exists []; by rewrite Ht | rewrite Hz; reflexivity]. Qed.

(** A step that adds one event. *)
Lemma grows_event (e : event) (m m' : machine) :
  P e → trace m' = e :: trace m → zone_map m' = zone_map m → grows P Q m m'.
Proof.
  intros He Ht Hz. split; [|rewrite Hz; reflexivity].
  exists [e]. split; [done | by constructor].
Qed.

Lemma stays_say (l : line) : stays (grows P Q) (say l).
Proof. intros m. by apply grows_quiet. Qed.

Lemma stays_show (r : result) : stays (grows P Q) (show r).
Proof.
  unfold show. apply stays_bind; [apply _ .. | apply stays_say | intros _].
  destruct (fst r =? 0); [apply stays_ret | apply stays_die]; apply _.
Qed.

Lemma stays_store_count n : stays (grows P Q) (store set_count n).
Proof. intros m. by apply grows_quiet. Qed.
Lemma stays_store_created n : stays (grows P Q) (store set_created n).
Proof. intros m. by apply grows_quiet. Qed.
Lemma stays_store_skipped n : stays (grows P Q) (store set_skipped n).
Proof. intros m. by apply grows_quiet. Qed.

Lemma stays_read_zone_map f : stays (grows P Q) (read_zone_map f).
Proof. intros m. unfold read_zone_map. destruct (zone_map m); by apply grows_quiet. Qed.

Lemma stays_show_zone_map : stays (grows P Q) show_zone_map.
Proof. intros m. unfold show_zone_map. destruct (zone_map m); by apply grows_quiet. Qed.

Lemma stays_request w p meth path data :
  P (Api p meth path data) → stays (grows P Q) (request w p meth path data).
Proof. intros H m. by apply (grows_event (Api p meth path data)). Qed.

Lemma stays_cf w meth path data :
  P (Api CF meth path data) → stays (grows P Q) (cf w meth path data).
Proof.
  intros H. apply stays_bind; [apply _ .. | by apply stays_request |].
  intros r. apply stays_ret, _.
Qed.

Lemma stays_ds w meth path data :
  P (Api DS meth path data) → stays (grows P Q) (ds w meth path data).
Proof.
  intros H. apply stays_bind; [apply _ .. | by apply stays_request |].
  intros r. apply stays_ret, _.
Qed.

Lemma stays_lookup w args : P (Dig args) → stays (grows P Q) (lookup w args).
Proof. intros H m. by apply (grows_event (Dig args)). Qed.

Lemma stays_probe w h url : P (Site h url) → stays (grows P Q) (probe w h url).
Proof. intros H m. by apply (grows_event (Site h url)). Qed.

Lemma stays_ask w msg : P (Prompt msg) → stays (grows P Q) (ask w msg).
Proof. intros H m. by apply (grows_event (Prompt msg)). Qed.

End Grows.

Lemma stays_weaken (R R' : relation machine) {A} (c : sh A) :
  (∀ m m', R m m' → R' m m') → stays R c → stays R' c.
Proof. intros H Hc m. apply H, Hc. Qed.

(** Walks through a computation along its binds, branches and loops, and
    leaves the conditions on the events it meets. *)
Ltac stays_go :=
  cbv zeta;
  lazymatch goal with
  | |- stays _ (bind _ _) => apply stays_bind; [apply _ .. | stays_go | intros ?; stays_go]
  | |- stays _ (if ?b then _ else _) => destruct b; stays_go
  | |- stays _ (match ?x with _ => _ end) => destruct x; stays_go
  | |- stays _ (for_each _ _) => apply stays_for_each; [apply _ .. | intros ? ?; stays_go]
  | |- stays _ (or_true _) => apply stays_or_true; stays_go
  | |- stays _ (cf _ _ _ _) => apply stays_cf; [apply _ ..|]
  | |- stays _ (ds _ _ _ _) => apply stays_ds; [apply _ ..|]
  | |- stays _ (request _ _ _ _ _) => apply stays_request; [apply _ ..|]
  | |- stays _ (lookup _ _) => apply stays_lookup; [apply _ ..|]
  | |- stays _ (probe _ _ _) => apply stays_probe; [apply _ ..|]
  | |- stays _ (ask _ _) => apply stays_ask; [apply _ ..|]
  | |- _ =>
      first
        [ apply stays_ret; apply _
        | apply stays_die; apply _
        | apply stays_run; apply _
        | apply stays_must; apply _
        | apply stays_load; apply _
        | apply stays_required; apply _
        | apply stays_say; apply _
        | apply stays_show; apply _
        | apply stays_read_zone_map; apply _
        | apply stays_show_zone_map; apply _
        | apply stays_store_count; apply _
        | apply stays_store_created; apply _
        | apply stays_store_skipped; apply _
        | idtac ]
  end.

(** * Step 2 keeps what the state file knows *)

Section AddZones.

Variable w : world.
Variable env : environ.
Variable d : string.

#[local] Instance same_record_refl : Reflexive (same_record d).
Proof. by intros zm. Qed.
#[local] Instance same_record_trans : Transitive (same_record d).
Proof. intros a b c H1 H2. unfold same_record in *. congruence. Qed.

#[local] Instance kept_refl : Reflexive (kept d).
Proof. intros m _. reflexivity. Qed.
#[local] Instance kept_trans : Transitive (kept d).
Proof.
  intros m1 m2 m3 H12 H23 Hk. specialize (H12 Hk).
  etrans; [exact H12|]. apply H23.
  destruct H12 as [_ HQ]. unfold stored_zone_id, zone_record, same_record in *.
  by rewrite HQ.
Qed.

Lemma stays_save_zone_other d' zid ns1 ns2 :
  d' ≠ d → stays (grows (no_creation d) (same_record d)) (save_zone d' zid ns1 ns2).
Proof.
  intros Hne m. unfold save_zone. destruct (zone_map m) as [zm|] eqn:E.
  - split; [by exists []|]. cbn. rewrite E. unfold same_record. cbn. by rewrite lookup_insert_ne.
  - by apply grows_quiet.
Qed.

Lemma stays_init_zone_map : stays (grows (no_creation d) (same_record d)) init_zone_map.
Proof.
  intros m. unfold init_zone_map. destruct (zone_map m) as [zm|] eqn:E.
  - by apply grows_quiet.
  - split; [by exists []|]. cbn. rewrite E. unfold same_record. cbn. by rewrite lookup_empty.
Qed.

Lemma add_zone_other d' :
  d' ≠ d → stays (grows (no_creation d) (same_record d)) (add_zone w d').
Proof.
  intros Hne. unfold add_zone, zone_id_for. stays_go;
    try (by apply stays_save_zone_other);
    try done.
  intros H. apply Hne, zone_payload_inj. congruence.
Qed.

(** [stored_zone_id] is what [zone_id_for] reads. *)
Lemma zone_id_for_reads d' m :
  is_Some (zone_map m) → zone_id_for d' m = (Next (stored_zone_id m d'), m).
Proof.
  intros [zm E]. unfold zone_id_for, read_zone_map, stored_zone_id, zone_record.
  by rewrite E.
Qed.

Lemma add_zone_known_at d' m :
  stored_zone_id m d' ≠ "" →
  add_zone w d' m =
  info (d' +:+ " — already added (zone: " +:+ stored_zone_id m d' +:+ ")") m.
Proof.
  intros Hk. unfold add_zone, zone_id_for, read_zone_map, bind, stored_zone_id, zone_record in *.
  destruct (zone_map m) as [zm|]; [|done]. cbn in *.
  destruct (nonempty _) eqn:E; [done|].
  unfold nonempty in E. apply negb_false_iff, String.eqb_eq in E. done.
Qed.

Lemma add_zone_kept d' : stays (kept d) (add_zone w d').
Proof.
  destruct (decide (d' = d)) as [->|Hne].
  - intros m Hk. rewrite add_zone_known_at by done. by apply grows_quiet.
  - eapply stays_weaken; [|by apply add_zone_other]. by intros m m' H _.
Qed.

Lemma step_add_zones_kept : stays (kept d) (step_add_zones w env).
Proof.
  unfold step_add_zones.
  apply stays_bind; [apply _ .. | | intros _].
  { eapply stays_weaken; [|apply (stays_say (no_creation d) (same_record d))]. by intros m m' H _. }
  apply stays_bind; [apply _ .. | | intros _].
  { eapply stays_weaken; [|apply stays_init_zone_map]. by intros m m' H _. }
  apply stays_bind; [apply _ .. | | intros _].
  { apply stays_for_each; [apply _ ..|]. intros d' _. apply add_zone_kept. }
  eapply stays_weaken; [by intros m m' H _|]. stays_go.
Qed.

Lemma validate_tokens_reads (P : event → Prop) Q `{!Reflexive Q, !Transitive Q} :
  (∀ p path, P (Api p GET path None)) → stays (grows P Q) (validate_tokens w).
Proof. intros HP. unfold validate_tokens. stays_go; apply HP. Qed.

Lemma add_zones_command_kept rest : stays (kept d) (main w env ("add-zones" :: rest)).
Proof.
  unfold main. change (select _) with (Some AddZones). cbn [run_step].
  apply stays_bind; [apply _ .. | apply stays_required, _ | intros _].
  apply stays_bind; [apply _ .. | apply stays_required, _ | intros _].
  apply stays_bind; [apply _ .. | | intros _; apply step_add_zones_kept].
  eapply stays_weaken; [by intros m m' H _|].
  by apply validate_tokens_reads; [apply _ ..|].
Qed.

#[local] Instance settled_refl : Reflexive settled.
Proof. intros m _. reflexivity. Qed.
#[local] Instance settled_trans : Transitive settled.
Proof.
  intros m1 m2 m3 H12 H23 Hk. specialize (H12 Hk).
  etrans; [exact H12|]. apply H23.
  destruct H12 as [_ HQ]. unfold stored_zone_id, zone_record in *.
  by rewrite <- HQ.
Qed.

Lemma add_zones_command_settled rest : stays settled (main w env ("add-zones" :: rest)).
Proof.
  assert (Hw : ∀ A (c : sh A), stays (grows no_post eq) c → stays settled c).
  { intros A c. apply stays_weaken. by intros m m' H _. }
  unfold main. change (select _) with (Some AddZones). cbn [run_step].
  apply stays_bind; [apply _ .. | apply stays_required, _ | intros _].
  apply stays_bind; [apply _ .. | apply stays_required, _ | intros _].
  apply stays_bind; [apply _ .. | | intros _].
  { apply Hw. by apply validate_tokens_reads; [apply _ ..|]. }
  unfold step_add_zones.
  apply stays_bind; [apply _ .. | apply Hw; stays_go | intros _].
  apply stays_bind; [apply _ .. | | intros _].
  { intros m Hk. unfold init_zone_map. destruct (zone_map m) as [zm|] eqn:E.
    - by apply grows_quiet.
    - exfalso. apply (Hk "eewby.com"); [by left|].
      unfold stored_zone_id, zone_record. by rewrite E. }
  apply stays_bind; [apply _ .. | | intros _; apply Hw; stays_go].
  apply stays_for_each; [apply _ ..|]. intros d' Hd' m Hk.
  rewrite add_zone_known_at by by apply Hk. by apply grows_quiet.
Qed.

End AddZones.

(** * Step 6 only reads *)

Section Verify.

Variable w : world.
Variable env : environ.

#[local] Instance file_kept_refl : Reflexive file_kept.
Proof. by intros zm _. Qed.
#[local] Instance file_kept_trans : Transitive file_kept.
Proof.
  intros a b c H1 H2 Ha. unfold file_kept in *.
  rewrite <- (H1 Ha). apply H2. by rewrite (H1 Ha).
Qed.

Lemma step_verify_reads : stays (grows read_only file_kept) (step_verify w).
Proof.
  unfold step_verify, verify_zone, verify_resolution, verify_url,
    verify_nameservers, zone_id_for.
  stays_go; done.
Qed.

(** The loop of the verify entry ends the script at its first command. *)
Lemma fetch_zone_exits (domain : string) (m : machine) :
  fetch_zone w domain m = (Exit 1, m).
Proof. reflexivity. Qed.

Lemma load_or_fetch_reads : stays (grows read_only file_kept) (load_or_fetch_zone_ids w).
Proof.
  intros m. unfold load_or_fetch_zone_ids, bind, load.
  destruct (zone_map m) as [zm|] eqn:E.
  - rewrite bool_decide_eq_true_2 by done. by apply grows_quiet.
  - rewrite bool_decide_eq_false_2 by (by intros [? ?]). cbn.
    split; [by exists []|]. rewrite E. by intros [? ?].
Qed.

Lemma verify_command_reads rest :
  stays (grows read_only file_kept) (main w env ("verify" :: rest)).
Proof.
  unfold main. change (select _) with (Some Verify). cbn [run_step].
  stays_go; [apply load_or_fetch_reads | | apply step_verify_reads].
  by apply validate_tokens_reads; [apply _ ..|].
Qed.

Lemma required_exported (v : option string) (m : machine) :
  exported v → ∃ t, required v m = (Next t, m).
Proof.
  intros (t & -> & Ht). exists t. unfold required, nonempty.
  by apply String.eqb_neq in Ht as ->.
Qed.

Lemma verify_command_creates_file rest (m : machine) :
  exported (CF_API_TOKEN env) → exported (DS_API_TOKEN env) →
  zone_map m = None →
  zone_map (snd (main w env ("verify" :: rest) m)) = Some ∅.
Proof.
  intros H1 H2 E. unfold main. change (select _) with (Some Verify). cbn [run_step].
  destruct (required_exported _ m H1) as [t1 E1].
  destruct (required_exported _ m H2) as [t2 E2].
  unfold bind at 1. rewrite E1. unfold bind at 1. rewrite E2.
  unfold load_or_fetch_zone_ids, bind, load.
  rewrite bool_decide_eq_false_2 by (rewrite E; by intros [? ?]).
  reflexivity.
Qed.

End Verify.

(** * Step 3, record by record *)

Section Records.

Variable w : world.

Lemma bind_say {A} (l : line) (k : unit → sh A) (m : machine) :
  bind (say l) k m = k tt (set_out (l :: out m) m).
Proof. reflexivity. Qed.

Lemma bind_bind_say {A B} (l : line) (k : unit → sh A) (k' : A → sh B) (m : machine) :
  bind (bind (say l) k) k' m = bind (k tt) k' (set_out (l :: out m) m).
Proof. reflexivity. Qed.

(** [create_cf_record ... && ((created++)) || true] never ends the script;
    it sends one request, and counts the record when it was accepted. *)
Lemma create_and_count_spec (zid data : string) (m : machine) :
  let m' := snd (create_and_count w zid data m) in
  fst (create_and_count w zid data m) = Next tt ∧
  trace m' = Api CF POST (records_path zid) (Some data) :: trace m ∧
  created m' = created m + (if accepts w zid data m then 1 else 0) ∧
  skipped m' = skipped m ∧
  zone_map m' = zone_map m ∧
  ∃ said, out m' = said ++ out m.
Proof.
  unfold create_and_count, create_cf_record, cf, request, bind, ret, accepts, or_true,
    post_incr, err, say.
  cbn [fst snd].
  destruct (String.eqb _ "true"); cbn; repeat split; try lia.
  - by exists [].
  - by eexists [_].
Qed.

(** A record that reads as a system record leaves no trace at all. *)
Lemma process_record_system (zid domain : string) (record : json) r (m : machine) :
  read_record record m = (Next r, m) → system_record r = "true" →
  process_record w zid domain record m = (Next tt, m).
Proof. intros Hr Hs. unfold process_record, bind. by rewrite Hr, Hs. Qed.

Lemma process_record_migrates (zid domain : string) (record : json) r (m : machine) :
  read_record record m = (Next r, m) → system_record r ≠ "true" →
  process_record w zid domain record m = migrate w zid domain r m.
Proof.
  intros Hr Hs. unfold process_record, bind. rewrite Hr.
  by apply String.eqb_neq in Hs as ->.
Qed.

(** The last arm of the case. *)
Lemma migrate_unknown (zid domain : string) r (m : machine) :
  type r ∉ ["A"; "AAAA"; "CNAME"; "ALIAS"; "MX"; "TXT"; "SRV"; "URL"] →
  migrate w zid domain r m =
  (if skipped m =? 0 then Exit 1 else Next tt,
   set_skipped (skipped m + 1)
     (set_out (Warn ("  Skipping unknown type: " +:+ type r +:+ " " +:+
                     cf_name_of (name r) +:+ " → " +:+ content r) :: out m) m)).
Proof.
  intros H. unfold migrate.
  repeat match goal with
  | |- context [String.eqb (type r) ?k] =>
      replace (String.eqb (type r) k) with false
        by (symmetry; apply String.eqb_neq; intros E; apply H; rewrite E;
            repeat first [by left | right])
  end.
  reflexivity.
Qed.

End Records.

(** * The claims *)

(** C1. Re-running add-zones: for a domain whose zone identifier is in the
    state file, the command sends no zone creation for that domain and
    leaves its record as it is, however the run goes and whatever the
    providers answer.  When every domain of the list is known, no POST is
    sent at all and the file keeps its content. *)
Theorem add_zones_idempotent (w : world) (env : environ) (rest : list string)
    (m : machine) (d : string) :
  stored_zone_id m d ≠ "" →
  let m' := snd (main w env ("add-zones" :: rest) m) in
  zone_record m' d = zone_record m d ∧
  (∃ new, trace m' = new ++ trace m ∧
          Api CF POST "/zones" (Some (zone_payload d)) ∉ new) ∧
  ((∀ d', d' ∈ DOMAINS → stored_zone_id m d' ≠ "") →
   zone_map m' = zone_map m ∧
   ∃ new, trace m' = new ++ trace m ∧
          Forall (λ e, ∀ p path data, e ≠ Api p POST path data) new).
Proof.
  intros Hk m'. split; [|split].
  - by destruct (add_zones_command_kept w env d rest m Hk) as [_ HQ].
  - destruct (add_zones_command_kept w env d rest m Hk) as [(new & E & F) _].
    exists new. split; [done|]. intros Hin.
    rewrite Forall_forall in F. by apply (F _ Hin).
  - intros Hall.
    destruct (add_zones_command_settled w env rest m Hall) as [(new & E & F) HQ].
    split; [done|]. by exists new.
Qed.

(** C4 (as amended). Verify sends nothing but GET requests to the two
    providers, and a state file that exists keeps its content.  When there
    is no state file and both tokens are exported, the verify entry
    creates one. *)
Theorem verify_only_reads (w : world) (env : environ) (rest : list string) (m : machine) :
  let m' := snd (main w env ("verify" :: rest) m) in
  (∃ new, trace m' = new ++ trace m ∧ Forall read_only new) ∧
  (is_Some (zone_map m) → zone_map m' = zone_map m) ∧
  (exported (CF_API_TOKEN env) ∧ exported (DS_API_TOKEN env) ∧ zone_map m = None →
   is_Some (zone_map m')).
Proof.
  intros m'. destruct (verify_command_reads w env rest m) as [Ht Hz].
  split; [done|]. split; [done|]. intros (H1 & H2 & E).
  subst m'. by rewrite verify_command_creates_file.
Qed.


(** C10. A record that the source marks as system record: no request is
    sent for it, neither counter moves (the state is untouched), and the
    loop goes on. *)
Theorem system_records_are_left_out (w : world) (zid domain : string)
    (record : json) (r : source_record) (m : machine) :
  read_record record m = (Next r, m) → system_record r = "true" →
  let m' := snd (process_record w zid domain record m) in
  fst (process_record w zid domain record m) = Next tt ∧
  trace m' = trace m ∧ created m' = created m ∧ skipped m' = skipped m ∧ m' = m.
Proof.
  intros Hr Hs m'. subst m'.
  by rewrite (process_record_system w zid domain record r m Hr Hs).
Qed.


(** C7. The SRV record of the specification, named [_sip._tcp] with
    content [10 5060 sip.example.com.]: service, protocol, weight, port
    and target are read off name and content as stated, and they are what
    the request for the record carries. *)
Theorem srv_record_is_reparsed (w : world) (zid domain : string)
    (record : json) (r : source_record) (m : machine) :
  read_record record m = (Next r, m) → system_record r ≠ "true" →
  type r = "SRV" → name r = "_sip._tcp" → content r = "10 5060 sip.example.com." →
  srv_service (name r) = "_sip" ∧ srv_proto (name r) = "_tcp" ∧
  srv_weight (content r) = "10" ∧ srv_port (content r) = "5060" ∧
  srv_target (content r) = "sip.example.com" ∧
  trace (snd (process_record w zid domain record m)) =
  Api CF POST ("/zones/" +:+ zid +:+ "/dns_records")
    (Some (obj [("type", q "SRV"); ("name", q ("_sip._tcp." +:+ domain));
                ("data", obj [("service", q "_sip"); ("proto", q "_tcp");
                              ("name", q domain);
                              ("priority", or_default (priority r) "0");
                              ("weight", "10"); ("port", "5060");
                              ("target", q "sip.example.com")])]))
  :: trace m.
Proof.
  intros Hr Hs Ht Hn Hc. rewrite (process_record_migrates w zid domain record r m Hr Hs).
  rewrite Hn, Hc. repeat (split; [reflexivity|]).
  unfold migrate. rewrite Ht, Hn, Hc.
  change (String.eqb "SRV" "A" || String.eqb "SRV" "AAAA") with false.
  change (String.eqb "SRV" "CNAME") with false.
  change (String.eqb "SRV" "ALIAS") with false.
  change (String.eqb "SRV" "MX") with false.
  change (String.eqb "SRV" "TXT") with false.
  change (String.eqb "SRV" "SRV") with true.
  cbv iota. unfold info. rewrite bind_say.
  match goal with
  | |- context [create_and_count w zid ?data ?m1] =>
      destruct (create_and_count_spec w zid data m1) as (_ & -> & _)
  end.
  reflexivity.
Qed.

(** C3 (as amended). A record of the source that reads as [r], of type
    URL and not a system record, is flagged with a warning and moves the
    skip counter by one.  When its name is neither empty nor [@], one
    request creates a proxied A record for 192.0.2.1 at that name, and the
    record is counted as created as well if Cloudflare accepts it; at the
    apex nothing is created. *)
Theorem url_records_are_flagged (w : world) (zid domain : string)
    (record : json) (r : source_record) (m : machine) :
  read_record record m = (Next r, m) → system_record r ≠ "true" →
  type r = "URL" →
  let m' := snd (process_record w zid domain record m) in
  let placeholder :=
    obj [("type", q "A"); ("name", q (name r)); ("content", q "192.0.2.1");
         ("ttl", "1"); ("proxied", "true")] in
  Warn ("  URL " +:+ cf_name_of (name r) +:+ " → " +:+ content r +:+
        " (redirect rule needed)") ∈ out m' ∧
  skipped m' = skipped m + 1 ∧
  (name r ≠ "" ∧ name r ≠ "@" →
   trace m' = Api CF POST ("/zones/" +:+ zid +:+ "/dns_records") (Some placeholder) :: trace m ∧
   created m' = created m + (if accepts w zid placeholder m then 1 else 0)) ∧
  (name r = "" ∨ name r = "@" → trace m' = trace m ∧ created m' = created m).
Proof.
  intros Hr Hs Ht m' placeholder. subst m'.
  rewrite (process_record_migrates w zid domain record r m Hr Hs).
  unfold migrate. rewrite Ht.
  change (String.eqb "URL" "A" || String.eqb "URL" "AAAA") with false.
  change (String.eqb "URL" "CNAME") with false.
  change (String.eqb "URL" "ALIAS") with false.
  change (String.eqb "URL" "MX") with false.
  change (String.eqb "URL" "TXT") with false.
  change (String.eqb "URL" "SRV") with false.
  change (String.eqb "URL" "URL") with true.
  cbv iota. unfold warn, info. rewrite bind_say.
  destruct (String.eqb (cf_name_of (name r)) "@") eqn:Hat; cbn [negb]; cbv iota.
  - (* at the apex: nothing is created *)
    assert (Hapex : name r = "" ∨ name r = "@").
    { unfold cf_name_of in Hat. destruct (String.eqb_spec (name r) ""); [by left|].
      right. by apply String.eqb_eq. }
    cbn. split; [by left|]. split; [done|]. split; [|done].
    intros [H1 H2]. destruct Hapex as [H|H]; contradiction.
  - (* elsewhere: one request, counted when accepted *)
    assert (Hname : cf_name_of (name r) = name r ∧ name r ≠ "" ∧ name r ≠ "@").
    { unfold cf_name_of in *. destruct (String.eqb_spec (name r) ""); [done|].
      split; [done|]. split; [done|]. by apply String.eqb_neq. }
    destruct Hname as (Hcf & Hne & Hnat). rewrite !Hcf.
    rewrite !bind_bind_say. unfold bind.
    match goal with
    | |- context [create_and_count w zid ?data ?m1] =>
        change data with placeholder;
        pose proof (create_and_count_spec w zid placeholder m1) as Hc;
        destruct (create_and_count w zid placeholder m1) as [o m2]
    end.
    cbn [fst snd] in Hc. destruct Hc as (-> & Htr & Hcr & Hsk & _ & said & Hout).
    cbn [post_incr snd skipped created trace out set_skipped].
    cbn [set_out trace created skipped out] in *.
    split; [rewrite Hout; apply elem_of_app; right; right; by left|].
    split; [lia|]. split; [|by intros [?|?]].
    intros _. split; [done|]. by rewrite Hcr.
Qed.

(** C9 (as amended). With both tokens exported: each of the seven words
    selects its step and nothing else is a step; without a first argument,
    or with an empty one, the step is all; every other word prints the
    usage and ends the script with status 1, before any request. *)
Theorem cli_dispatch (w : world) (env : environ) (m : machine) :
  exported (CF_API_TOKEN env) → exported (DS_API_TOKEN env) →
  (select "add-zones" = Some AddZones ∧ select "create-records" = Some CreateRecords ∧
   select "create-redirects" = Some CreateRedirects ∧ select "switch-ns" = Some SwitchNs ∧
   select "verify" = Some Verify ∧ select "unlock" = Some Unlock ∧ select "all" = Some All) ∧
  (∀ word rest s, select word = Some s →
     main w env (word :: rest) m = run_step w env s m) ∧
  main w env [] m = run_step w env All m ∧
  (∀ rest, main w env ("" :: rest) m = run_step w env All m) ∧
  (∀ word rest,
     word ≠ "" →
     word ∉ ["add-zones"; "create-records"; "create-redirects"; "switch-ns";
             "verify"; "unlock"; "all"] →
     main w env (word :: rest) m = (Exit 1, set_out (Echo (usage env) :: out m) m)).
Proof.
  intros H1 H2.
  assert (Hmain : ∀ args,
    main w env args m =
    match select (or_default (hd "" args) "all") with
    | Some s => run_step w env s m
    | None => (Exit 1, set_out (Echo (usage env) :: out m) m)
    end).
  { intros args. unfold main.
    destruct (required_exported _ m H1) as [t1 E1].
    destruct (required_exported _ m H2) as [t2 E2].
    unfold bind at 1. rewrite E1. unfold bind at 1. rewrite E2.
    by destruct (select _). }
  split; [done|]. split; [|split; [|split]].
  - intros word rest s Hs. rewrite Hmain. cbn [hd]. unfold or_default.
    destruct (String.eqb_spec word "") as [->|_]; [done|]. by rewrite Hs.
  - by rewrite Hmain.
  - intros rest. by rewrite Hmain.
  - intros word rest Hne Hout. rewrite Hmain. cbn [hd]. unfold or_default.
    apply String.eqb_neq in Hne as ->.
    assert (Hsel : select word = None); [|by rewrite Hsel].
    unfold select.
    repeat match goal with
    | |- context [String.eqb word ?k] =>
        replace (String.eqb word k) with false
          by (symmetry; apply String.eqb_neq; intros E; apply Hout; rewrite E;
              repeat first [by left | right])
    end.
    reflexivity.
Qed.

(** * The claims on concrete runs *)

Import Scenario.

(** C2, where the code leaves the claim.  The source lists a CAA record
    and then an A record.  The CAA record is reported and counted, and
    the arithmetic command that counts it ends the script with status 1:
    the A record is never created and the other domains are never
    looked at. *)
Theorem unknown_type_ends_the_script :
  let run := main (providers [] [caa; www]) tokens ["create-records"] (start (Some one_zone)) in
  fst run = Exit 1 ∧
  skipped (snd run) = 1 ∧ created (snd run) = 0 ∧
  head (out (snd run)) =
    Some (Warn ("  Skipping unknown type: CAA @ → 0 issue " +:+ q "letsencrypt.org")) ∧
  rev (trace (snd run)) =
    [Api CF GET "/user/tokens/verify" None;
     Api DS GET "" None;
     Api CF GET "/zones/z1/dns_records?per_page=100" None;
     Api DS GET "/zones/eewby.com/records?per_page=100" None].
Proof. vm_compute. by repeat split. Qed.

(** C6, where the code leaves the claim.  The target zone holds two
    records.  The first is deleted, and the arithmetic command that counts
    it ends the script with status 1: the second record stays, and the
    source is never asked for its records. *)
Theorem clearing_stops_after_one_record :
  let run := main (providers ["r1"; "r2"] [www]) tokens ["create-records"] (start (Some one_zone)) in
  fst run = Exit 1 ∧
  count (snd run) = 1 ∧
  rev (trace (snd run)) =
    [Api CF GET "/user/tokens/verify" None;
     Api DS GET "" None;
     Api CF GET "/zones/z1/dns_records?per_page=100" None;
     Api CF DELETE "/zones/z1/dns_records/r1" None].
Proof. vm_compute. by repeat split. Qed.

(** C3 as stated fails: a URL record at the apex gets no placeholder, and
    a URL record whose placeholder is accepted is counted as created. *)
Lemma url_record_counterexample :
  let at_apex := snd (process_record (providers [] []) "z1" "eewby.com" url_apex (start (Some one_zone))) in
  let at_hire := snd (process_record (providers [] []) "z1" "eewby.com" url_hire (start (Some one_zone))) in
  trace at_apex = [] ∧ skipped at_apex = 1 ∧
  created at_hire = 1 ∧ skipped at_hire = 1.
Proof. vm_compute. by repeat split. Qed.

(** C4 as stated fails: without a state file, verify leaves one behind. *)
Lemma verify_counterexample :
  zone_map (start None) = None ∧
  zone_map (snd (main (providers [] []) tokens ["verify"] (start None))) = Some ∅.
Proof. vm_compute. by split. Qed.

(** C9 as stated fails: the empty word is none of the seven, and the
    script does not print its usage for it; it starts the whole migration,
    validates the tokens and asks to confirm step 2.  And without the
    tokens in the environment no word gets as far as the usage. *)
Lemma empty_argument_counterexample :
  let run := main (providers [] []) tokens [""] (start None) in
  (Echo (usage tokens) ∉ out (snd run)) ∧
  rev (trace (snd run)) =
    [Api CF GET "/user/tokens/verify" None;
     Api DS GET "" None;
     Prompt "  Press Enter to continue (Ctrl+C to abort)... "] ∧
  main (providers [] []) no_tokens ["deploy"] (start None) = (Exit 1, start None).
Proof.
  split; [|by vm_compute].
  intros H. vm_compute in H.
  repeat (apply elem_of_cons in H as [H|H]; [discriminate H|]).
  by apply elem_of_nil in H.
Qed.

(** * The theorems at work *)

Lemma add_zones_idempotent_witness :
  stored_zone_id (start (Some one_zone)) "eewby.com" ≠ "" ∧
  zone_record (snd (main (providers [] []) tokens ["add-zones"] (start (Some one_zone))))
    "eewby.com" = zone_record (start (Some one_zone)) "eewby.com".
Proof.
  assert (H : stored_zone_id (start (Some one_zone)) "eewby.com" ≠ "") by done.
  split; [exact H|].
  exact (proj1 (add_zones_idempotent (providers [] []) tokens [] (start (Some one_zone))
                  "eewby.com" H)).
Defined.


Lemma system_records_are_left_out_witness :
  read_record soa (start (Some one_zone)) =
    (Next {| type := "SOA"; name := "";
             content := "ns1.dnsimple.com admin.dnsimple.com 1 2 3 4 5";
             ttl := "3600"; priority := ""; system_record := "true" |},
     start (Some one_zone)) ∧
  snd (process_record (providers [] []) "z1" "eewby.com" soa (start (Some one_zone))) =
  start (Some one_zone).
Proof.
  assert (H : read_record soa (start (Some one_zone)) =
    (Next {| type := "SOA"; name := "";
             content := "ns1.dnsimple.com admin.dnsimple.com 1 2 3 4 5";
             ttl := "3600"; priority := ""; system_record := "true" |},
     start (Some one_zone))) by reflexivity.
  split; [exact H|].
  exact (proj2 (proj2 (proj2 (proj2
    (system_records_are_left_out (providers [] []) "z1" "eewby.com" soa _
       (start (Some one_zone)) H eq_refl))))).
Defined.


Lemma srv_record_is_reparsed_witness :
  read_record sip (start (Some one_zone)) =
    (Next {| type := "SRV"; name := "_sip._tcp"; content := "10 5060 sip.example.com.";
             ttl := "3600"; priority := "5"; system_record := "false" |},
     start (Some one_zone)) ∧
  trace (snd (process_record (providers [] []) "z1" "eewby.com" sip (start (Some one_zone)))) =
  [Api CF POST "/zones/z1/dns_records"
     (Some (obj [("type", q "SRV"); ("name", q "_sip._tcp.eewby.com");
                 ("data", obj [("service", q "_sip"); ("proto", q "_tcp");
                               ("name", q "eewby.com"); ("priority", "5");
                               ("weight", "10"); ("port", "5060");
                               ("target", q "sip.example.com")])]))].
Proof.
  assert (H : read_record sip (start (Some one_zone)) =
    (Next {| type := "SRV"; name := "_sip._tcp"; content := "10 5060 sip.example.com.";
             ttl := "3600"; priority := "5"; system_record := "false" |},
     start (Some one_zone))) by reflexivity.
  split; [exact H|].
  refine (proj2 (proj2 (proj2 (proj2 (proj2
    (srv_record_is_reparsed (providers [] []) "z1" "eewby.com" sip _
       (start (Some one_zone)) H _ eq_refl eq_refl eq_refl)))))).
  discriminate.
Defined.

Lemma url_records_are_flagged_witness :
  read_record url_hire (start (Some one_zone)) =
    (Next {| type := "URL"; name := "hire"; content := "https://mstrick.com/hire";
             ttl := "3600"; priority := ""; system_record := "false" |},
     start (Some one_zone)) ∧
  skipped (snd (process_record (providers [] []) "z1" "mstrick.com" url_hire
                  (start (Some one_zone)))) = 0 + 1.
Proof.
  assert (H : read_record url_hire (start (Some one_zone)) =
    (Next {| type := "URL"; name := "hire"; content := "https://mstrick.com/hire";
             ttl := "3600"; priority := ""; system_record := "false" |},
     start (Some one_zone))) by reflexivity.
  split; [exact H|].
  refine (proj1 (proj2
    (url_records_are_flagged (providers [] []) "z1" "mstrick.com" url_hire _
       (start (Some one_zone)) H _ eq_refl))).
  discriminate.
Defined.

Lemma cli_dispatch_witness :
  exported (CF_API_TOKEN tokens) ∧ exported (DS_API_TOKEN tokens) ∧
  main (providers [] []) tokens ["deploy"] (start None) =
  (Exit 1, set_out [Echo (usage tokens)] (start None)).
Proof.
  assert (H1 : exported (CF_API_TOKEN tokens)) by (by eexists).
  assert (H2 : exported (DS_API_TOKEN tokens)) by (by eexists).
  split; [exact H1|]. split; [exact H2|].
  refine (proj2 (proj2 (proj2 (proj2
    (cli_dispatch (providers [] []) tokens (start None) H1 H2)))) "deploy" [] _ _).
  - done.
  - intros H. repeat (apply elem_of_cons in H as [H|H]; [discriminate H|]).
    by apply elem_of_nil in H.
Defined.

(** * Further properties: the rules, for every step *)

Section MoreGrows.

Variable P : event → Prop.
Variable Q : relation (option (gmap string ZoneRecord)).
Context `{!Reflexive Q, !Transitive Q}.

Lemma stays_post_incr_count : stays (grows P Q) (post_incr count set_count).
Proof. intros m. by apply grows_quiet. Qed.
Lemma stays_post_incr_created : stays (grows P Q) (post_incr created set_created).
Proof. intros m. by apply grows_quiet. Qed.
Lemma stays_post_incr_skipped : stays (grows P Q) (post_incr skipped set_skipped).
Proof. intros m. by apply grows_quiet. Qed.

Lemma stays_sleep n : P (Sleep n) → stays (grows P Q) (sleep n).
Proof. intros H m. by apply (grows_event P Q (Sleep n)). Qed.

Lemma stays_confirm w msg :
  (∀ text, P (Prompt text)) → stays (grows P Q) (confirm w msg).
Proof. intros H. unfold confirm. stays_go. apply H. Qed.

Lemma stays_create_and_count w zid data :
  P (Api CF POST (records_path zid) (Some data)) →
  stays (grows P Q) (create_and_count w zid data).
Proof.
  intros H. unfold create_and_count, create_cf_record. stays_go; try done.
  apply stays_post_incr_created.
Qed.

End MoreGrows.

(** [stays_go], and the rules above at its leaves. *)
Ltac stays_all :=
  stays_go;
  try first
    [ apply stays_post_incr_count; apply _
    | apply stays_post_incr_created; apply _
    | apply stays_post_incr_skipped; apply _
    | apply stays_sleep; [apply _ ..|]
    | apply stays_confirm; [apply _ ..|]
    | apply stays_create_and_count; [apply _ ..|] ].

(** Each step under the rules, for a relation [grows P Q] whose [P] holds
    of the events of the step and whose [Q] lets the state file be
    written the way the step writes it. *)
Section Steps.

Variable P : event → Prop.
Variable Q : relation (option (gmap string ZoneRecord)).
Context `{!Reflexive Q, !Transitive Q}.
Variable w : world.
Variable env : environ.

Hypothesis P_cf : ∀ meth path data, P (Api CF meth path data).
Hypothesis P_ds_get : ∀ path, P (Api DS GET path None).
Hypothesis P_ds_put : ∀ d data, d ∈ DOMAINS →
  P (Api DS PUT ("/registrar/domains/" +:+ d +:+ "/delegation") (Some data)).
Hypothesis P_ds_post : ∀ d, d ∈ DOMAINS ++ ["runeasy.app"] →
  P (Api DS POST ("/registrar/domains/" +:+ d +:+ "/authorize_transfer_out") None).
Hypothesis P_site : ∀ h url, P (Site h url).
Hypothesis P_dig : ∀ args, P (Dig args).
Hypothesis P_prompt : ∀ text, P (Prompt text).
Hypothesis P_sleep : ∀ n, P (Sleep n).
Hypothesis Q_save : ∀ d zid ns1 ns2, d ∈ DOMAINS →
  stays (grows P Q) (save_zone d zid ns1 ns2).
Hypothesis Q_new : Q None (Some ∅).

Lemma validate_tokens_stays : stays (grows P Q) (validate_tokens w).
Proof. unfold validate_tokens. stays_all; auto. Qed.

Lemma init_zone_map_stays : stays (grows P Q) init_zone_map.
Proof.
  intros m. unfold init_zone_map. destruct (zone_map m) as [zm|] eqn:E.
  - by apply grows_quiet.
  - split; [by exists []|]. cbn. by rewrite E.
Qed.

Lemma step_add_zones_stays : stays (grows P Q) (step_add_zones w env).
Proof.
  unfold step_add_zones, add_zone, zone_id_for.
  stays_all; auto using init_zone_map_stays.
Qed.

Lemma step_create_records_stays : stays (grows P Q) (step_create_records w).
Proof.
  unfold step_create_records, create_records_for, clear_zone_records,
    process_record, read_record, migrate, zone_id_for.
  stays_all; auto.
Qed.

Lemma step_create_redirects_stays : stays (grows P Q) (step_create_redirects w).
Proof. unfold step_create_redirects, zone_id_for. stays_all; auto. Qed.

Lemma step_switch_nameservers_stays : stays (grows P Q) (step_switch_nameservers w).
Proof.
  unfold step_switch_nameservers, switch_nameservers_for, nameserver_for.
  stays_all; auto.
Qed.

Lemma step_verify_stays : stays (grows P Q) (step_verify w).
Proof.
  unfold step_verify, verify_zone, verify_resolution, verify_url,
    verify_nameservers, zone_id_for.
  stays_all; auto.
Qed.

Lemma step_unlock_domains_stays : stays (grows P Q) (step_unlock_domains w).
Proof. unfold step_unlock_domains, unlock_domain. stays_all; auto. Qed.

Lemma load_or_fetch_stays : stays (grows P Q) (load_or_fetch_zone_ids w).
Proof.
  intros m. unfold load_or_fetch_zone_ids, bind, load.
  destruct (zone_map m) as [zm|] eqn:E.
  - rewrite bool_decide_eq_true_2 by done. by apply grows_quiet.
  - rewrite bool_decide_eq_false_2 by (by intros [? ?]). cbn.
    split; [by exists []|]. by rewrite E.
Qed.

Lemma run_all_stays : stays (grows P Q) (run_all w env).
Proof.
  unfold run_all.
  stays_all;
    auto using validate_tokens_stays, step_add_zones_stays, step_create_records_stays,
      step_create_redirects_stays, step_switch_nameservers_stays, step_verify_stays,
      step_unlock_domains_stays.
Qed.

Lemma main_stays (args : list string) : stays (grows P Q) (main w env args).
Proof.
  unfold main. stays_all. unfold run_step.
  stays_all;
    auto using validate_tokens_stays, step_add_zones_stays, step_create_records_stays,
      step_create_redirects_stays, step_switch_nameservers_stays, step_verify_stays,
      step_unlock_domains_stays, load_or_fetch_stays, run_all_stays.
Qed.

End Steps.

(** * Further properties: the state file and the requests of a run *)

#[local] Instance file_grows_refl : Reflexive file_grows.
Proof. intros file zm ->. by exists zm. Qed.

#[local] Instance file_grows_trans : Transitive file_grows.
Proof.
  intros f1 f2 f3 H12 H23 zm E.
  destruct (H12 zm E) as (zm2 & E2 & Hd2 & Ho2).
  destruct (H23 zm2 E2) as (zm3 & E3 & Hd3 & Ho3).
  exists zm3. split; [done|]. split; [by etrans|].
  intros d Hd. by rewrite Ho3, Ho2.
Qed.

Lemma save_zone_grows (P : event → Prop) d zid ns1 ns2 :
  d ∈ DOMAINS → stays (grows P file_grows) (save_zone d zid ns1 ns2).
Proof.
  intros Hd m. unfold save_zone. destruct (zone_map m) as [zm|] eqn:E.
  - split; [by exists []|]. cbn. rewrite E. intros zm0 [= <-].
    eexists. split; [done|]. split.
    + rewrite dom_insert_L. apply union_subseteq_r.
    + intros d' Hd'. rewrite lookup_insert_ne; [done|]. by intros ->.
  - apply grows_quiet; [apply _ | done | done].
Qed.

#[local] Instance anything_refl : Reflexive (λ _ _ : option (gmap string ZoneRecord), True).
Proof. done. Qed.
#[local] Instance anything_trans : Transitive (λ _ _ : option (gmap string ZoneRecord), True).
Proof. done. Qed.

(** X1. Whatever the command and whatever the providers answer, a state
    file that exists still exists afterwards, every domain it held is still
    in it, and what it holds for a domain outside the list is unchanged. *)
Theorem state_file_only_grows (w : world) (env : environ) (args : list string)
    (m : machine) (zm : gmap string ZoneRecord) :
  zone_map m = Some zm →
  ∃ zm', zone_map (snd (main w env args m)) = Some zm' ∧
         dom zm ⊆ dom zm' ∧
         ∀ d, d ∉ DOMAINS → zm' !! d = zm !! d.
Proof.
  intros E.
  assert (H : stays (grows (λ _, True) file_grows) (main w env args)).
  { apply main_stays; try done; try apply _.
    intros d zid ns1 ns2 Hd. by apply save_zone_grows. }
  destruct (H m) as [_ HQ]. by apply HQ.
Qed.

(** X2. Whatever the command, every request it sends to DNSimple is a GET,
    a PUT of the delegation of a listed domain, or a POST that authorizes
    the transfer of a listed domain or of runeasy.app: nothing else is
    ever written or deleted there. *)
Theorem dnsimple_requests_are_limited (w : world) (env : environ) (args : list string)
    (m : machine) :
  ∃ new, trace (snd (main w env args m)) = new ++ trace m ∧ Forall ds_request_ok new.
Proof.
  assert (H : stays (grows ds_request_ok (λ _ _, True)) (main w env args)).
  { apply main_stays; try done; try apply _.
    - intros d data Hd. by exists d.
    - intros d Hd. by exists d.
    - intros d zid ns1 ns2 Hd m0. unfold save_zone.
      destruct (zone_map m0); (split; [by exists []|done]). }
  by destruct (H m) as [Ht _].
Qed.

(** * Further properties: changes at DNSimple wait for the operator *)

Lemma gated_push w e t : ¬ ds_write e → gated w t → gated w (e :: t).
Proof. intros He Hg. split; [done|]. by intros H. Qed.


#[local] Instance gate_kept_refl w : Reflexive (gate_kept w).
Proof. intros m H. exact H. Qed.
#[local] Instance gate_kept_trans w : Transitive (gate_kept w).
Proof. intros a b c H1 H2 H. by apply H2, H1. Qed.

Lemma quiet_gate_kept w {A} (c : sh A) :
  stays (grows (λ e, ¬ ds_write e) (λ _ _, True)) c → stays (gate_kept w) c.
Proof.
  intros H m Hg. destruct (H m) as [(new & -> & F) _].
  induction F as [|e new He F IH]; [done|]. by apply gated_push.
Qed.

Lemma confirm_arms w msg {A} (c : sh A) :
  (∀ m, armed w m → gated w (trace m) → gated w (trace (snd (c m)))) →
  stays (gate_kept w) (bind (confirm w msg) (λ _, c)).
Proof.
  intros H m Hg. unfold confirm, ask, echo, say, die, bind.
  cbv zeta. cbn [fst snd trace set_out set_trace].
  match goal with |- context [operator w ?t] => destruct (operator w t) eqn:Ha end;
    cbn [fst snd trace set_out set_trace].
  - apply H; [by eexists _, _ | by apply gated_push; [intros []|]].
  - by apply gated_push; [intros []|].
  - by apply gated_push; [intros []|].
Qed.

Lemma write_when_armed w s p meth path data {A} (k : reply → sh A) (m : machine) :
  (∀ r, stays (gate_kept w) (k r)) →
  armed w m → gated w (trace m) →
  gated w (trace (snd (bind (echo_n s) (λ _, bind (request w p meth path data) k) m))).
Proof.
  intros Hk (msg & t & E & Ha) Hg.
  unfold bind at 1. unfold echo_n, say. unfold bind, request.
  cbn [fst snd trace set_out set_trace].
  match goal with |- context [k ?r ?m1] => pose proof (Hk r m1) as H; destruct (k r m1) as [o m2] end.
  cbn [snd] in *. destruct o; apply H; cbn; (split; [done|]); intros _; rewrite E in *; eauto.
Qed.


Lemma write_when_armed_ds w s meth path data {A} (k : Z * text → sh A) (m : machine) :
  (∀ r, stays (gate_kept w) (k r)) →
  armed w m → gated w (trace m) →
  gated w (trace (snd (bind (echo_n s) (λ _, bind (ds w meth path data) k) m))).
Proof.
  intros Hk. apply (write_when_armed w s DS meth path data (λ r, k (curl_sf r))).
  intros r. apply Hk.
Qed.

Lemma switch_gated w d : stays (gate_kept w) (switch_nameservers_for w d).
Proof.
  unfold switch_nameservers_for.
  apply stays_bind; [apply _ .. | apply quiet_gate_kept; unfold nameserver_for; stays_all | intros ns1].
  apply stays_bind; [apply _ .. | apply quiet_gate_kept; unfold nameserver_for; stays_all | intros ns2].
  destruct (_ || _); [apply quiet_gate_kept; stays_all|].
  apply confirm_arms. intros m Ha Hg.
  apply write_when_armed_ds; [|done|done].
  intros r. apply quiet_gate_kept. stays_all. by intros H.
Qed.

Lemma unlock_gated w d : stays (gate_kept w) (unlock_domain w d).
Proof.
  unfold unlock_domain.
  apply confirm_arms. intros m Ha Hg.
  apply write_when_armed; [|done|done].
  intros r. apply quiet_gate_kept. stays_all.
Qed.

Ltac not_write := intros; let H := fresh in intros H; cbn in H; solve [done | by apply H].

Lemma main_gated w env args : stays (gate_kept w) (main w env args).
Proof.
  assert (Hq : ∀ A (c : sh A),
    stays (grows (λ e, ¬ ds_write e) (λ _ _, True)) c → stays (gate_kept w) c)
    by (intros; by apply quiet_gate_kept).
  assert (Hsave : ∀ d zid ns1 ns2, d ∈ DOMAINS →
    stays (grows (λ e, ¬ ds_write e) (λ _ _, True)) (save_zone d zid ns1 ns2)).
  { intros d zid ns1 ns2 Hd m0. unfold save_zone.
    destruct (zone_map m0); (split; [by exists []|done]). }
  assert (H5 : stays (gate_kept w) (step_switch_nameservers w)).
  { unfold step_switch_nameservers.
    do 4 (apply stays_bind; [apply _ .. | apply Hq; stays_all | intros _]).
    apply stays_for_each; [apply _ ..|]. intros d _. apply switch_gated. }
  assert (H7 : stays (gate_kept w) (step_unlock_domains w)).
  { unfold step_unlock_domains.
    do 7 (apply stays_bind; [apply _ .. | apply Hq; stays_all | intros _]).
    apply stays_bind; [apply _ .. | | intros _; apply Hq; stays_all].
    apply stays_for_each; [apply _ ..|]. intros d _. apply unlock_gated. }
  assert (Hv : stays (gate_kept w) (validate_tokens w)).
  { apply Hq. apply validate_tokens_stays; try apply _; not_write. }
  assert (H2 : stays (gate_kept w) (step_add_zones w env)).
  { apply Hq. apply step_add_zones_stays; try apply _; try done; not_write. }
  assert (H3 : stays (gate_kept w) (step_create_records w)).
  { apply Hq. apply step_create_records_stays; try apply _; not_write. }
  assert (H4 : stays (gate_kept w) (step_create_redirects w)).
  { apply Hq. apply step_create_redirects_stays; try apply _; not_write. }
  assert (H6 : stays (gate_kept w) (step_verify w)).
  { apply Hq. apply step_verify_stays; try apply _; not_write. }
  assert (Hl : stays (gate_kept w) (load_or_fetch_zone_ids w)).
  { apply Hq. apply load_or_fetch_stays; try apply _; done. }
  assert (Hc : ∀ msg, stays (gate_kept w) (confirm w msg)).
  { intros msg. apply Hq. stays_all. not_write. }
  unfold main.
  apply stays_bind; [apply _ .. | apply Hq; stays_all | intros _].
  apply stays_bind; [apply _ .. | apply Hq; stays_all | intros _].
  destruct (select _) as [[]|]; cbn [run_step]; try unfold run_all;
    stays_go; first [assumption | apply Hc | apply Hq; stays_all].
Qed.

(** X3. In every run of every command, each request that changes
    something at DNSimple (a delegation, a transfer authorization) comes
    right after a prompt that the operator answered with Enter. *)
Theorem dnsimple_changes_are_confirmed (w : world) (env : environ) (args : list string)
    (m : machine) :
  gated w (trace m) → gated w (trace (snd (main w env args m))).
Proof. apply main_gated. Qed.

(** X4. When the operator never answers a prompt with Enter (nobody at the
    terminal, or Ctrl+C), no command changes anything at DNSimple: a trace
    without a PUT, POST or DELETE there stays without one. *)
Theorem nothing_changes_without_enter (w : world) (env : environ) (args : list string)
    (m : machine) :
  (∀ t, operator w t ≠ Enter) →
  Forall (λ e, ¬ ds_write e) (trace m) →
  Forall (λ e, ¬ ds_write e) (trace (snd (main w env args m))).
Proof.
  intros Hw Hm.
  assert (Hg : gated w (trace m)).
  { induction Hm as [|e t He _ IH]; cbn; [done|]. split; [done|]. by intros Hd. }
  apply (main_gated w env args m) in Hg. revert Hg.
  generalize (trace (snd (main w env args m))). intros t.
  induction t as [|e t IH]; cbn; [by constructor|].
  intros [Ht He]. constructor; [|by apply IH].
  intros Hd. destruct (He Hd) as (msg & t'' & _ & HE). by apply (Hw t).
Qed.

(** * Further properties: tokens that are refused *)







(** * Further properties: one zone of step 2 *)


(** X7. A zone that Cloudflare creates is stored as answered: after the
    turn of a domain whose creation succeeded, the state file holds the
    identifier and the two nameservers of the answer under that domain,
    [zone_id_for] reads the identifier back, the other domains are
    untouched, and one request was sent.  With a non-empty identifier a
    second turn for the domain sends nothing. *)
Theorem created_zone_is_stored (w : world) (d : string) (m : machine) :
  is_Some (zone_map m) → stored_zone_id m d = "" →
  let body := snd (curl_sf (api w (Api CF POST "/zones" (Some (zone_payload d)) :: trace m))) in
  let read := λ f, lax (jq true f body) in
  read f_success = "true" →
  fst (add_zone w d m) = Next tt →
  let m' := snd (add_zone w d m) in
  zone_record m' d =
    Some {| zone_id := read (Key f_result "id");
            nameservers := (read (Nth (Key f_result "name_servers") 0),
                            read (Nth (Key f_result "name_servers") 1)) |} ∧
  zone_id_for d m' = (Next (read (Key f_result "id")), m') ∧
  (∀ d', d' ≠ d → zone_record m' d' = zone_record m d') ∧
  trace m' = Api CF POST "/zones" (Some (zone_payload d)) :: trace m ∧
  (read (Key f_result "id") ≠ "" → trace (snd (add_zone w d m')) = trace m').
Proof.
  intros [zm E] Hid body read Hok.
  assert (Hrun : ∃ ended, ended = add_zone w d m) by eauto. destruct Hrun as [ended Hrun].
  rewrite <- Hrun.
  unfold add_zone in Hrun.
  unfold bind at 1 in Hrun. rewrite zone_id_for_reads in Hrun by eauto. rewrite Hid in Hrun.
  change (nonempty "") with false in Hrun. cbv iota in Hrun.
  unfold echo_n in Hrun. rewrite bind_say in Hrun.
  unfold cf, request, bind at 1 2, ret in Hrun. cbv zeta in Hrun.
  cbn [fst snd trace set_trace set_out] in Hrun. fold body in Hrun.
  unfold bind at 1 in Hrun. unfold run at 1 in Hrun.
  unfold read, lax in *.
  destruct (fst (jq true f_success body) =? 0); [|rewrite Hrun; by cbn].
  unfold ret in Hrun. rewrite Hok in Hrun. change (String.eqb "true" "true") with true in Hrun.
  cbv iota in Hrun.
  unfold bind, run, ret, die, save_zone, info, say in Hrun.
  repeat (match type of Hrun with context [if ?b then _ else _] => destruct b end;
          [|rewrite Hrun; by cbn]).
  cbn [zone_map set_trace set_out] in Hrun. rewrite E in Hrun.
  rewrite Hrun. intros _. cbn [snd]. clear Hrun ended.
  split; [|split; [|split; [|split]]].
  - unfold zone_record. cbn. by rewrite lookup_insert_eq.
  - rewrite zone_id_for_reads by (cbn; eauto).
    unfold stored_zone_id, zone_record. cbn. by rewrite lookup_insert_eq.
  - intros d' Hne. unfold zone_record. cbn. rewrite E. cbn. by rewrite lookup_insert_ne.
  - reflexivity.
  - intros Hne. rewrite add_zone_known_at; [done|].
    unfold stored_zone_id, zone_record. cbn. by rewrite lookup_insert_eq.
Qed.

(** * Further properties: the records of step 3 *)

(** X8. Clearing a zone sends the listing and at most one DELETE; when it
    sends a DELETE, the script ends there with status 1. *)
Theorem clearing_deletes_at_most_once (w : world) (zid domain : string) (m : machine) :
  let listing := Api CF GET (records_path zid +:+ "?per_page=100") None in
  let ended := clear_zone_records w zid domain m in
  trace (snd ended) = listing :: trace m ∨
  (∃ id, trace (snd ended) =
           Api CF DELETE (records_path zid +:+ "/" +:+ id) None
           :: listing :: trace m ∧
         fst ended = Exit 1).
Proof.
  intros listing ended.
  assert (Hrun : ended = clear_zone_records w zid domain m) by done. clearbody ended.
  unfold clear_zone_records in Hrun.
  unfold cf, request, bind at 1 2, ret in Hrun. cbv zeta in Hrun.
  cbn [fst snd trace set_trace] in Hrun.
  fold listing in Hrun. unfold bind at 1, must in Hrun.
  destruct (fst (curl_sf (api w (listing :: trace m))) =? 0);
    [|left; rewrite Hrun; by cbn].
  unfold ret in Hrun. unfold bind at 1, run in Hrun.
  destruct (fst (jq true _ _) =? 0); [|left; rewrite Hrun; by cbn].
  unfold ret in Hrun. unfold bind at 1, store in Hrun.
  destruct (words _) as [|id ids].
  - left. rewrite Hrun. cbn [for_each]. unfold bind, ret, load. cbn.
    by destruct (0 <? count m).
  - right. exists id. rewrite Hrun. cbn [for_each].
    unfold bind, or_true, post_incr, cf, request, ret.
    by cbn.
Qed.

Ltac eval_eqb :=
  repeat match goal with
  | |- context [String.eqb ?a ?b] =>
      let v := eval vm_compute in (String.eqb a b) in
      change (String.eqb a b) with v
  end;
  cbn [orb negb]; cbv iota.

Lemma migrate_plain (w : world) (zid domain : string) (r : source_record) (m : machine) :
  type r ∈ ["A"; "AAAA"; "CNAME"; "ALIAS"] →
  ∃ line,
    migrate w zid domain r m =
    create_and_count w zid
      (plain_payload (if String.eqb (type r) "ALIAS" then "CNAME" else type r)
         (cf_name_of (name r)) (content r))
      (set_out (Info line :: out m) m).
Proof.
  intros H. unfold migrate.
  repeat (apply elem_of_cons in H as [->|H]); [..|by apply elem_of_nil in H];
    eval_eqb; eexists; unfold info; rewrite bind_say; reflexivity.
Qed.

Lemma migrate_known (w : world) (zid domain : string) (r : source_record) (m : machine) :
  type r ∈ ["A"; "AAAA"; "CNAME"; "ALIAS"; "MX"; "TXT"; "SRV"] →
  ∃ line data,
    migrate w zid domain r m =
    create_and_count w zid data (set_out (Info line :: out m) m).
Proof.
  intros H. unfold migrate.
  repeat (apply elem_of_cons in H as [->|H]); [..|by apply elem_of_nil in H];
    eval_eqb; eexists _, _; unfold info; rewrite bind_say; reflexivity.
Qed.

(** X9. A record of one of the seven types the script migrates never ends
    the script, whatever Cloudflare answers: exactly one creation is sent to
    the zone, the record is counted as created when and only when the
    answer says success, and nothing is counted as skipped. *)
Theorem known_types_are_posted_once (w : world) (zid domain : string)
    (r : source_record) (m : machine) :
  type r ∈ ["A"; "AAAA"; "CNAME"; "ALIAS"; "MX"; "TXT"; "SRV"] →
  ∃ data,
    fst (migrate w zid domain r m) = Next tt ∧
    trace (snd (migrate w zid domain r m)) =
      Api CF POST (records_path zid) (Some data) :: trace m ∧
    created (snd (migrate w zid domain r m)) =
      created m + (if accepts w zid data m then 1 else 0) ∧
    skipped (snd (migrate w zid domain r m)) = skipped m ∧
    zone_map (snd (migrate w zid domain r m)) = zone_map m.
Proof.
  intros H. destruct (migrate_known w zid domain r m H) as (line & data & ->).
  exists data.
  destruct (create_and_count_spec w zid data (set_out (Info line :: out m) m))
    as (H1 & H2 & H3 & H4 & H5 & _).
  done.
Qed.

(** X10. Address, CNAME and ALIAS records are created DNS-only with the
    automatic TTL, under the name [@] at the apex; an ALIAS is created as a
    CNAME. *)
Theorem plain_records_are_dns_only (w : world) (zid domain : string)
    (r : source_record) (m : machine) :
  type r ∈ ["A"; "AAAA"; "CNAME"; "ALIAS"] →
  trace (snd (migrate w zid domain r m)) =
    Api CF POST (records_path zid)
      (Some (obj [("type", q (if String.eqb (type r) "ALIAS" then "CNAME" else type r));
                  ("name", q (if String.eqb (name r) "" then "@" else name r));
                  ("content", q (content r));
                  ("ttl", "1"); ("proxied", "false")]))
    :: trace m.
Proof.
  intros H. destruct (migrate_plain w zid domain r m H) as (line & ->).
  by destruct (create_and_count_spec w zid
                 (plain_payload (if String.eqb (type r) "ALIAS" then "CNAME" else type r)
                    (cf_name_of (name r)) (content r))
                 (set_out (Info line :: out m) m)) as (_ & -> & _).
Qed.

(** ** A domain's turn that finishes *)

Lemma triple_ret {A} (pre post : machine → Prop) (a : A) :
  (∀ m, pre m → post m) → triple pre (ret a) post.
Proof. intros H m b m' Hp [= _ <-]. by apply H. Qed.

Lemma triple_bind {A B} (pre mid post : machine → Prop) (c : sh A) (k : A → sh B) :
  triple pre c mid → (∀ a, triple mid (k a) post) → triple pre (bind c k) post.
Proof.
  intros Hc Hk m b m' Hp E. unfold bind in E.
  destruct (c m) as [[a|s] m1] eqn:Ec; [|done].
  eapply Hk; [|exact E]. by eapply Hc.
Qed.

Lemma triple_for_each {A} (inv : machine → Prop) (l : list A) (body : A → sh unit) :
  (∀ x, triple inv (body x) inv) → triple inv (for_each l body) inv.
Proof.
  intros H. induction l as [|x l IH]; cbn [for_each].
  - by apply triple_ret.
  - eapply triple_bind; [apply H | intros _; apply IH].
Qed.

Lemma undeleted_push base e m m' :
  ¬ is_delete e → trace m' = e :: trace m → undeleted base m → undeleted base m'.
Proof.
  intros He Ht (new & E & F). exists (e :: new). rewrite Ht, E. split; [done|].
  by constructor.
Qed.

Lemma undeleted_same base m m' : trace m' = trace m → undeleted base m → undeleted base m'.
Proof. intros Ht (new & E & F). exists new. by rewrite Ht. Qed.

(** A leaf: run the primitive on the state, and read what is known of the
    counters into the run. *)
Ltac triple_leaf :=
  let m := fresh "m" in let a := fresh "a" in let m' := fresh "m'" in
  let Hp := fresh "Hp" in let E := fresh "E" in
  intros m a m' Hp E;
  unfold unskipped, uncounted in *; destruct_and?;
  cbv [say echo echo_n info warn err header run must load store ret die
    read_zone_map zone_id_for cf ds request bind or_true post_incr fst snd] in E;
  cbn [count skipped created set_count set_skipped set_created
       set_out set_trace trace] in E;
  repeat match goal with
  | H : count ?m = 0 |- _ => rewrite H in E
  | H : skipped ?m = 0 |- _ => rewrite H in E
  end;
  change (0 =? 0) with true in E; cbv iota in E;
  repeat match type of E with
  | context [if ?b then _ else _] => destruct b eqn:?
  | context [match ?x with _ => _ end] => destruct x eqn:?
  end;
  simplify_eq/=;
  try (repeat split; try done;
       eauto using undeleted_same;
       try (eapply undeleted_push; [| |eassumption]; [|reflexivity]; by intros [])).

Ltac triple_go inv :=
  cbv zeta;
  lazymatch goal with
  | |- triple _ (bind (or_true _) _) _ => idtac
  | |- triple _ (bind _ _) _ =>
      apply (triple_bind _ inv _); [triple_go inv | intros ?; triple_go inv]
  | |- triple _ (if ?b then _ else _) _ => destruct b; triple_go inv
  | |- triple _ (match ?x with _ => _ end) _ => destruct x; triple_go inv
  | |- triple _ (for_each _ _) _ => apply triple_for_each; intros ?; triple_go inv
  | |- _ => try solve [triple_leaf]
  end.

Lemma clear_uncounted w zid d base :
  triple (undeleted base) (clear_zone_records w zid d) (uncounted base).
Proof.
  unfold clear_zone_records.
  apply (triple_bind _ (undeleted base) _); [triple_leaf|intros r].
  apply (triple_bind _ (undeleted base) _); [triple_leaf|intros records].
  apply (triple_bind _ (undeleted base) _); [triple_leaf|intros ids].
  apply (triple_bind _ (uncounted base) _); [triple_leaf|intros _].
  apply (triple_bind _ (uncounted base) _).
  { apply triple_for_each. intros id. triple_leaf. }
  intros _. triple_go (uncounted base).
Qed.

Lemma process_record_unskipped w zid d record base :
  triple (unskipped base) (process_record w zid d record) (unskipped base).
Proof.
  unfold process_record, read_record, migrate, create_and_count, create_cf_record.
  triple_go (unskipped base).
Qed.

Lemma pretty_zero : pretty 0 = "0".
Proof. reflexivity. Qed.

(** X11. A domain's turn of step 3 that runs to its end has deleted nothing
    at Cloudflare and skipped nothing: its summary line always reads
    [0 skipped].  (A record to clear, a URL record or a record of an unknown
    type ends the script before the summary.) *)
Theorem finished_turn_cleared_and_skipped_nothing (w : world) (d : string) (m : machine) :
  stored_zone_id m d ≠ "" →
  fst (create_records_for w d m) = Next tt →
  (∃ new, trace (snd (create_records_for w d m)) = new ++ trace m ∧
          Forall (λ e, ¬ is_delete e) new) ∧
  ∃ (c : Z) rest,
    out (snd (create_records_for w d m)) =
    Echo "" :: Info ("  " +:+ d +:+ ": " +:+ pretty c +:+ " created, 0 skipped") :: rest.
Proof.
  intros Hz Hn.
  destruct (create_records_for w d m) as [o m1] eqn:E. cbn in Hn. subst o. cbn [snd].
  revert E. unfold create_records_for, zone_id_for, read_zone_map, bind at 1.
  unfold stored_zone_id, zone_record in Hz.
  destruct (zone_map m) as [zm|] eqn:Ez; [|done]. cbn [mbind option_bind] in Hz.
  apply String.eqb_neq in Hz. rewrite Hz. clear Hz.
  generalize (default "" (zone_id <$> zm !! d)). intros zid E.
  set (base := trace m).
  set (post := λ m1, undeleted base m1 ∧ ∃ (c : Z) rest,
     out m1 = Echo "" :: Info ("  " +:+ d +:+ ": " +:+ pretty c +:+ " created, 0 skipped") :: rest).
  change (post m1). revert E.
  match goal with |- ?c m = _ → _ => cut (triple (undeleted base) c post) end.
  { intros T E. eapply T; [|exact E]. exists []. by split. }
  apply (triple_bind _ (undeleted base) _); [triple_leaf|intros _].
  apply (triple_bind _ (uncounted base) _); [apply clear_uncounted|intros _].
  apply (triple_bind _ (uncounted base) _); [triple_leaf|intros r].
  apply (triple_bind _ (uncounted base) _); [triple_leaf|intros ds_records].
  apply (triple_bind _ (uncounted base) _); [triple_leaf|intros total].
  apply (triple_bind _ (uncounted base) _); [triple_leaf|intros _].
  apply (triple_bind _ (uncounted base) _); [triple_leaf|intros _].
  apply (triple_bind _ (unskipped base) _); [triple_leaf|intros _].
  apply (triple_bind _ (unskipped base) _).
  { apply triple_for_each. intros record. apply process_record_unskipped. }
  intros _ m2 a m3 (Hu & Hc & Hs) E.
  cbv [bind load info echo say] in E. rewrite Hs, pretty_zero in E.
  injection E as _ <-. split; [done|]. cbn [out set_out]. eauto.
Qed.

(** ** The names of SRV records *)

Lemma chomp_without (s : string) : without LF s = true → chomp s = s.
Proof.
  induction s as [|a s IH]; [done|]. cbn [without chomp].
  intros [Ha Hs]%andb_prop. rewrite (IH Hs).
  apply negb_true_iff in Ha. rewrite Ascii.eqb_sym in Ha. by rewrite Ha.
Qed.

Lemma split_without (c : ascii) (s : string) :
  without c s = true → split (Ascii.eqb c) s = [s].
Proof.
  induction s as [|a s IH]; [done|]. cbn [without split].
  intros [Ha Hs]%andb_prop. apply negb_true_iff in Ha. by rewrite Ha, (IH Hs).
Qed.

Lemma split_at (c : ascii) (s p : string) :
  without c s = true →
  split (Ascii.eqb c) (s +:+ String c p) = s :: split (Ascii.eqb c) p.
Proof.
  induction s as [|a s IH].
  - intros _. change ("" +:+ String c p) with (String c p). cbn [split].
    by rewrite Ascii.eqb_refl.
  - cbn [without]. intros [Ha Hs]%andb_prop. apply negb_true_iff in Ha.
    rewrite append_cons. cbn [split]. by rewrite Ha, (IH Hs).
Qed.

Lemma without_app (c : ascii) (s p : string) :
  without c (s +:+ p) = without c s && without c p.
Proof.
  induction s as [|a s IH]; [done|]. rewrite append_cons. cbn [without].
  by rewrite IH, andb_assoc.
Qed.

Lemma pretty_N_char_digit (x : N) : Ascii.eqb LF (pretty_N_char x) = false.
Proof. unfold pretty_N_char. by repeat case_match. Qed.

Lemma pretty_N_go_without (x : N) (s : string) :
  without LF s = true → without LF (pretty_N_go x s) = true.
Proof.
  revert s. induction (N.lt_wf_0 x) as [x _ IH]. intros s Hs.
  destruct (decide (x = 0)%N) as [->|Hx]; [by rewrite pretty_N_go_0|].
  rewrite pretty_N_go_step by lia. apply IH.
  - apply N.div_lt; lia.
  - cbn [without]. by rewrite pretty_N_char_digit.
Qed.

Lemma pretty_nat_without (n : nat) : without LF (pretty n) = true.
Proof.
  unfold pretty, pretty_nat, pretty, pretty_N.
  case_decide; [done|]. by apply pretty_N_go_without.
Qed.

(** X12. The name of an SRV record is cut at its first dot: for a name
    [service.proto] whose two parts hold neither a dot nor a newline, the
    payload's service and proto are the two parts. *)
Theorem srv_name_is_cut (service proto : string) :
  without "." service = true → without LF service = true →
  without "." proto = true → without LF proto = true →
  srv_service (service +:+ "." +:+ proto) = service ∧
  srv_proto (service +:+ "." +:+ proto) = proto.
Proof.
  intros Hs Hsl Hp Hpl. unfold srv_service, srv_proto, per_line, lines.
  assert (Hl : without LF (service +:+ "." +:+ proto) = true).
  { rewrite !without_app. by rewrite Hsl, Hpl. }
  rewrite (split_without LF _ Hl). cbn [map join]. unfold cut_dot.
  change ("." +:+ proto) with (String "." proto).
  rewrite (split_at "." _ _ Hs), (split_without "." _ Hp). cbn [nth pred].
  by rewrite !chomp_without.
Qed.


(** * Further properties: the redirect rule of step 4 *)


(** X14. Without a zone identifier for mstrick.com in the state file, step 4
    sends nothing and ends the script with status 1 after its error line. *)
Theorem redirects_need_the_zone (w : world) (m : machine) :
  is_Some (zone_map m) → stored_zone_id m "mstrick.com" = "" →
  step_create_redirects w m =
  (Exit 1, set_out (Err "mstrick.com zone ID not found" ::
                    Header "Step 4: Create redirect rules" :: out m) m).
Proof.
  intros [zm E] Hid. unfold step_create_redirects, header, err. rewrite bind_say.
  unfold bind at 1. rewrite zone_id_for_reads by (cbn; eauto).
  change (stored_zone_id (set_out _ m) "mstrick.com") with (stored_zone_id m "mstrick.com").
  rewrite Hid. reflexivity.
Qed.


(** * Further properties: steps 5 and 7, domain by domain *)

Lemma switch_nameservers_for_unknown (w : world) (d : string) (m : machine) :
  is_Some (zone_map m) → zone_record m d = None →
  switch_nameservers_for w d m =
  (Next tt, set_out (Err (d +:+ " — no nameservers found in state") :: out m) m).
Proof.
  intros [zm E] Hd. unfold zone_record in Hd. rewrite E in Hd. cbn in Hd.
  unfold switch_nameservers_for, nameserver_for, read_zone_map.
  unfold bind at 1. rewrite E. unfold bind at 1. rewrite E, Hd. reflexivity.
Qed.

Lemma switch_loop_unknown (w : world) (l : list string) (m : machine) :
  is_Some (zone_map m) → (∀ d, d ∈ l → zone_record m d = None) →
  let ended := for_each l (switch_nameservers_for w) m in
  fst ended = Next tt ∧ trace (snd ended) = trace m ∧ zone_map (snd ended) = zone_map m ∧
  ∃ said, out (snd ended) = said ++ out m ∧
          said = reverse ((λ d, Err (d +:+ " — no nameservers found in state")) <$> l).
Proof.
  revert m. induction l as [|d l IH]; intros m Hf Hl ended.
  - cbn. repeat split; try done. by exists [].
  - assert (Hrun : ended = for_each (d :: l) (switch_nameservers_for w) m) by done.
    clearbody ended. cbn [for_each] in Hrun. unfold bind in Hrun.
    rewrite switch_nameservers_for_unknown in Hrun; [|done|apply Hl; by left].
    rewrite Hrun. clear Hrun ended.
    destruct (IH (set_out (Err (d +:+ " — no nameservers found in state") :: out m) m))
      as (H1 & H2 & H3 & said & H4 & H5).
    { done. } { intros d' Hd'. apply Hl. by right. }
    repeat split; try done. eexists. split; [|reflexivity].
    rewrite H4, H5, fmap_cons, reverse_cons. cbn [out set_out]. by rewrite <- app_assoc.
Qed.

(** X16. With a state file that knows none of the listed domains, step 5
    asks nothing of the operator and sends nothing: it prints one error
    line per domain and returns. *)
Theorem switch_ns_needs_the_state (w : world) (m : machine) :
  is_Some (zone_map m) → (∀ d, d ∈ DOMAINS → zone_record m d = None) →
  let ended := step_switch_nameservers w m in
  fst ended = Next tt ∧ trace (snd ended) = trace m ∧ zone_map (snd ended) = zone_map m ∧
  Forall (λ d, Err (d +:+ " — no nameservers found in state") ∈ out (snd ended)) DOMAINS.
Proof.
  intros Hf Hl ended.
  assert (Hrun : ended = step_switch_nameservers w m) by done. clearbody ended.
  unfold step_switch_nameservers, header, echo in Hrun. rewrite !bind_say in Hrun.
  match type of Hrun with context [for_each _ _ ?m0] => set (m1 := m0) in Hrun end.
  rewrite Hrun. clear Hrun ended.
  destruct (switch_loop_unknown w DOMAINS m1) as (H1 & H2 & H3 & said & H4 & H5); [done..|].
  repeat split; try done.
  rewrite H4, H5. apply Forall_forall. intros d Hd.
  apply elem_of_app. left. apply elem_of_reverse.
  by apply (list_elem_of_fmap_2 (λ d, Err (d +:+ " — no nameservers found in state"))).
Qed.

(** X17. Unlocking a domain, once the operator has answered Enter and
    DNSimple has answered with an HTTP status: one POST is sent, status 204
    is reported as unlocked, every other status as an error with the
    status, and in both cases the loop goes on to the next domain. *)
Theorem unlock_goes_on (w : world) (d : string) (m : machine) (code : nat) (body : text) :
  let prompt := Prompt "  Press Enter to continue (Ctrl+C to abort)... " in
  let post := Api DS POST ("/registrar/domains/" +:+ d +:+ "/authorize_transfer_out") None in
  operator w (prompt :: trace m) = Enter →
  api w (post :: prompt :: trace m) = Http code body →
  let ended := unlock_domain w d m in
  fst ended = Next tt ∧
  trace (snd ended) = post :: prompt :: trace m ∧
  zone_map (snd ended) = zone_map m ∧
  head (out (snd ended)) =
    Some (if Nat.eqb code 204 then Info (d +:+ " unlocked — check email for auth code")
          else Err (d +:+ " — HTTP " +:+ pretty code)).
Proof.
  intros prompt post Ho Ha ended.
  assert (Hrun : ended = unlock_domain w d m) by done. clearbody ended.
  unfold unlock_domain, confirm, echo, echo_n in Hrun. rewrite bind_bind_say in Hrun.
  unfold bind at 1 2 in Hrun. unfold ask in Hrun. cbn [trace set_out] in Hrun.
  fold prompt in Hrun. rewrite Ho in Hrun.
  unfold say at 1 in Hrun. cbn [fst snd] in Hrun. rewrite bind_say in Hrun.
  unfold bind at 1, request in Hrun. cbn [trace set_out set_trace] in Hrun.
  fold post in Hrun. rewrite Ha in Hrun.
  unfold curl_code, run, bind in Hrun. cbn [fst snd] in Hrun.
  change (0 =? 0) with true in Hrun. cbv iota in Hrun.
  unfold ret in Hrun. rewrite (chomp_without _ (pretty_nat_without code)) in Hrun.
  assert (Hc : String.eqb (pretty code) "204" = Nat.eqb code 204).
  { destruct (Nat.eqb_spec code 204) as [->|Hne]; [done|].
    apply String.eqb_neq. intros E. apply Hne.
    by apply (inj (pretty : nat → string)). }
  rewrite Hc in Hrun. rewrite Hrun. by destruct (Nat.eqb code 204).
Qed.

Lemma jq_after_jq_e (f : filter) (t : text) :
  fst (jq_e f t) = 0 → fst (jq false f t) = 0.
Proof.
  unfold jq_e, jq. destruct t as [| |v]; try done.
  by destruct (eval f v).
Qed.

(** X18. For a domain whose nameservers are in the state file, once the
    operator has answered Enter, step 5 sends DNSimple one PUT of the
    domain's delegation whose body is exactly the two stored nameservers,
    pauses, and goes on to the next domain whatever DNSimple answers; the
    state file is left alone. *)
Theorem delegation_sends_the_stored_nameservers (w : world) (d : string) (m : machine)
    (rec : ZoneRecord) :
  zone_record m d = Some rec →
  fst (nameservers rec) ≠ "" → fst (nameservers rec) ≠ "null" →
  let prompt := Prompt "  Press Enter to continue (Ctrl+C to abort)... " in
  let put := Api DS PUT ("/registrar/domains/" +:+ d +:+ "/delegation")
               (Some ("[" +:+ q (fst (nameservers rec)) +:+ "," +:+
                      q (snd (nameservers rec)) +:+ "]")) in
  operator w (prompt :: trace m) = Enter →
  let ended := switch_nameservers_for w d m in
  fst ended = Next tt ∧
  trace (snd ended) = Sleep 2 :: put :: prompt :: trace m ∧
  zone_map (snd ended) = zone_map m.
Proof.
  intros Hrec H1 H2 prompt put Ho ended.
  assert (Hrun : ended = switch_nameservers_for w d m) by done. clearbody ended.
  unfold zone_record in Hrec. destruct (zone_map m) as [zm|] eqn:E; [|done].
  cbn in Hrec.
  unfold switch_nameservers_for, nameserver_for, read_zone_map in Hrun.
  unfold bind at 1 in Hrun. rewrite E in Hrun. unfold bind at 1 in Hrun.
  rewrite E, Hrec in Hrun. cbn [fmap option_fmap option_map default from_option id] in Hrun.
  apply String.eqb_neq in H1, H2. rewrite H1, H2 in Hrun. cbn [orb] in Hrun.
  unfold confirm, echo, echo_n in Hrun. rewrite bind_bind_say in Hrun.
  unfold bind at 1 2 in Hrun. unfold ask in Hrun. cbn [trace set_out] in Hrun.
  fold prompt in Hrun. rewrite Ho in Hrun.
  unfold say at 1 in Hrun. cbn [fst snd] in Hrun. rewrite bind_say in Hrun.
  unfold ds, request, bind at 1 2, ret in Hrun. cbn [trace set_out set_trace fst snd] in Hrun.
  fold put in Hrun.
  set (result := snd (curl_sf (api w (put :: prompt :: trace m)))) in Hrun.
  pose proof (jq_after_jq_e (Key Dot "data") result) as Hj.
  destruct (fst (jq_e (Key Dot "data") result) =? 0) eqn:Ee.
  - apply Z.eqb_eq in Ee. specialize (Hj Ee).
    unfold bind, info, show, say, sleep, ret in Hrun. rewrite Hj in Hrun.
    rewrite Hrun. by cbn.
  - rewrite Hrun. by cbn.
Qed.

(** * The further properties at work *)

Import Cases.

Lemma state_file_only_grows_witness :
  zone_map fresh = Some ∅ ∧
  ∃ zm', zone_map (snd (main creating tokens ["add-zones"] fresh)) = Some zm' ∧
         dom (∅ : gmap string ZoneRecord) ⊆ dom zm' ∧
         ∀ d, d ∉ DOMAINS → zm' !! d = (∅ : gmap string ZoneRecord) !! d.
Proof.
  split; [reflexivity|].
  exact (state_file_only_grows creating tokens ["add-zones"] fresh ∅ eq_refl).
Defined.

Lemma dnsimple_changes_are_confirmed_witness :
  gated (attended [] []) (trace (start (Some one_zone))) ∧
  gated (attended [] [])
    (trace (snd (main (attended [] []) tokens ["unlock"] (start (Some one_zone))))).
Proof.
  assert (H : gated (attended [] []) (trace (start (Some one_zone)))) by exact I.
  split; [exact H|].
  exact (dnsimple_changes_are_confirmed (attended [] []) tokens ["unlock"]
           (start (Some one_zone)) H).
Defined.

Lemma nothing_changes_without_enter_witness :
  (∀ t, operator (providers [] []) t ≠ Enter) ∧
  Forall (λ e, ¬ ds_write e)
    (trace (snd (main (providers [] []) tokens ["all"] (start (Some one_zone))))).
Proof.
  assert (H : ∀ t, operator (providers [] []) t ≠ Enter) by (intros t; discriminate).
  split; [exact H|].
  exact (nothing_changes_without_enter (providers [] []) tokens ["all"]
           (start (Some one_zone)) H (Forall_nil_2 _)).
Defined.



Lemma created_zone_is_stored_witness :
  zone_record (snd (add_zone creating "eewby.com" fresh)) "eewby.com" =
  Some {| zone_id := "z5";
          nameservers := ("ada.ns.cloudflare.com", "bob.ns.cloudflare.com") |}.
Proof.
  apply (created_zone_is_stored creating "eewby.com" fresh).
  - by eexists.
  - reflexivity.
  - reflexivity.
  - reflexivity.
Defined.

Lemma known_types_are_posted_once_witness :
  ∃ data,
    fst (migrate (providers [] []) "z1" "eewby.com" mx_record (start (Some one_zone))) = Next tt ∧
    trace (snd (migrate (providers [] []) "z1" "eewby.com" mx_record (start (Some one_zone)))) =
      [Api CF POST (records_path "z1") (Some data)].
Proof.
  destruct (known_types_are_posted_once (providers [] []) "z1" "eewby.com" mx_record
              (start (Some one_zone))) as (data & H1 & H2 & _).
  - repeat constructor.
  - exists data. split; [exact H1 | exact H2].
Defined.

Lemma plain_records_are_dns_only_witness :
  trace (snd (migrate (providers [] []) "z1" "eewby.com" alias_record (start (Some one_zone)))) =
  [Api CF POST "/zones/z1/dns_records"
     (Some (obj [("type", q "CNAME"); ("name", q "@"); ("content", q "eewby.github.io");
                 ("ttl", "1"); ("proxied", "false")]))].
Proof.
  apply (plain_records_are_dns_only (providers [] []) "z1" "eewby.com" alias_record
           (start (Some one_zone))).
  repeat constructor.
Defined.

Lemma finished_turn_cleared_and_skipped_nothing_witness :
  fst (create_records_for (providers [] [www; mail; soa]) "eewby.com" (start (Some one_zone)))
    = Next tt ∧
  ∃ (c : Z) rest,
    out (snd (create_records_for (providers [] [www; mail; soa]) "eewby.com"
                (start (Some one_zone)))) =
    Echo "" :: Info ("  " +:+ "eewby.com" +:+ ": " +:+ pretty c +:+ " created, 0 skipped") :: rest.
Proof.
  assert (H : fst (create_records_for (providers [] [www; mail; soa]) "eewby.com"
                     (start (Some one_zone))) = Next tt) by reflexivity.
  split; [exact H|].
  refine (proj2 (finished_turn_cleared_and_skipped_nothing (providers [] [www; mail; soa])
                   "eewby.com" (start (Some one_zone)) _ H)).
  discriminate.
Defined.

Lemma srv_name_is_cut_witness :
  srv_service ("_sip" +:+ "." +:+ "_tcp") = "_sip" ∧
  srv_proto ("_sip" +:+ "." +:+ "_tcp") = "_tcp".
Proof. apply srv_name_is_cut; reflexivity. Defined.


Lemma redirects_need_the_zone_witness :
  step_create_redirects (providers [] []) (start (Some one_zone)) =
  (Exit 1, set_out [Err "mstrick.com zone ID not found";
                    Header "Step 4: Create redirect rules"] (start (Some one_zone))).
Proof.
  apply (redirects_need_the_zone (providers [] []) (start (Some one_zone))).
  - by eexists.
  - reflexivity.
Defined.


Lemma switch_ns_needs_the_state_witness :
  fst (step_switch_nameservers (providers [] []) fresh) = Next tt ∧
  trace (snd (step_switch_nameservers (providers [] []) fresh)) = [].
Proof.
  destruct (switch_ns_needs_the_state (providers [] []) fresh) as (H1 & H2 & _).
  - by eexists.
  - intros d _. reflexivity.
  - split; [exact H1 | exact H2].
Defined.

Lemma unlock_goes_on_witness :
  fst (unlock_domain (attended [] []) "eewby.com" (start (Some one_zone))) = Next tt ∧
  head (out (snd (unlock_domain (attended [] []) "eewby.com" (start (Some one_zone))))) =
    Some (Info "eewby.com unlocked — check email for auth code").
Proof.
  destruct (unlock_goes_on (attended [] []) "eewby.com" (start (Some one_zone)) 204 Blank)
    as (H1 & _ & _ & H2).
  - reflexivity.
  - reflexivity.
  - split; [exact H1 | exact H2].
Defined.

Lemma delegation_sends_the_stored_nameservers_witness :
  trace (snd (switch_nameservers_for (attended [] []) "eewby.com" (start (Some one_zone)))) =
  [Sleep 2;
   Api DS PUT "/registrar/domains/eewby.com/delegation"
     (Some ("[" +:+ q "ada.ns.cloudflare.com" +:+ "," +:+ q "bob.ns.cloudflare.com" +:+ "]"));
   Prompt "  Press Enter to continue (Ctrl+C to abort)... "].
Proof.
  refine (proj1 (proj2 (delegation_sends_the_stored_nameservers (attended [] []) "eewby.com"
            (start (Some one_zone)) _ eq_refl _ _ eq_refl))); discriminate.
Defined.
